(** * The Link of the IBC relayer (src/lib/link.ts) and the ics20 bootstrap
      (src/binary/ibc-setup/commands/ics20.ts), as a shallow embedding.

    Asynchronous code that talks to the two chains is embedded as a program
    over the calls it makes on its collaborators (the chain signing clients
    and the endpoints, whose code lives in ibcclient.ts and endpoint.ts);
    a program is run against a handler that answers the calls and threads
    the state of the two chains.  Numbers are integer valued JavaScript
    numbers (block heights, sequences), embedded as [Z]; the one value that
    is not an integer and that the code can produce, [-Infinity] out of
    [Math.max()] of no argument, is kept, and a sum is rounded as the sum
    of two doubles is. *)

From Stdlib Require Import ZArith List String Ascii Bool Lia.
From Stdlib Require Import Strings.Byte.
Import ListNotations.
Local Open Scope string_scope.
Local Open Scope list_scope.
Local Open Scope Z_scope.

(** ** JavaScript values *)

(** [Uint8Array]. *)
Definition bytes := list byte.

(** [arrayContentEquals] of @cosmjs/utils: same length, same content. *)
Fixpoint arrayContentEquals (a b : bytes) : bool :=
  match a, b with
  | [], [] => true
  | x :: a', y :: b' => Byte.eqb x y && arrayContentEquals a' b'
  | _, _ => false
  end.

(** The numbers a height bound can be: an integer, or [-Infinity]. *)
Inductive number : Type :=
| NegInfinity
| Num (z : Z).

(** [Math.max(...xs)]: [-Infinity] when there is no argument.  The
    spread passes one argument per element; how many arguments one call
    can take is a limit of the engine's stack (a [RangeError] beyond it),
    not of the language, and is not modelled. *)
Definition Math_max (xs : list Z) : number :=
  fold_left
    (fun acc x => match acc with
                  | NegInfinity => Num x
                  | Num a => Num (Z.max a x)
                  end)
    xs NegInfinity.

(** [Number.MAX_SAFE_INTEGER], 2^53 - 1. *)
Definition MAX_SAFE_INTEGER : Z := 9007199254740991.

(** The double nearest to an integer, ties to the even mantissa: an
    integer of at most 2^53 in absolute value is a double; beyond, the
    mantissa keeps 53 bits and the unit in the last place is [2^e]. *)
Definition toDouble (z : Z) : Z :=
  let a := Z.abs z in
  if a <=? 2 ^ 53 then z
  else
    let e := Z.log2 a - 52 in
    let q := Z.shiftr a e in
    let r := a - Z.shiftl q e in
    let half := 2 ^ (e - 1) in
    let q' := if (half <? r) || ((r =? half) && Z.odd q) then q + 1 else q in
    Z.sgn z * Z.shiftl q' e.

(** [n + k], the sum of two doubles: it is rounded to the nearest double
    (the one use adds 1 to a double, which does not overflow);
    [-Infinity + k] is [-Infinity]. *)
Definition number_add (n : number) (k : Z) : number :=
  match n with
  | NegInfinity => NegInfinity
  | Num z => Num (toDouble (z + k))
  end.

(** [a >= m] for an integer [a]. *)
Definition geb_number (a : Z) (m : number) : bool :=
  match m with
  | NegInfinity => true
  | Num z => z <=? a
  end.

(** [a < m] for an integer [a]. *)
Definition ltb_number (a : Z) (m : number) : bool :=
  match m with
  | NegInfinity => false
  | Num z => a <? z
  end.

(** Truthiness of an optional string: [undefined] and the empty string are
    falsy. *)
Definition truthy (s : option string) : bool :=
  match s with
  | Some s' => negb (String.eqb s' EmptyString)
  | None => false
  end.

(** [s.split(d)] for a one character delimiter. *)
Fixpoint split_at (d : ascii) (s : string) : list string :=
  match s with
  | EmptyString => [EmptyString]
  | String c rest =>
      if Ascii.eqb c d then EmptyString :: split_at d rest
      else match split_at d rest with
           | [] => [String c EmptyString]
           | hd :: tl => String c hd :: tl
           end
  end.

(** ** Data model *)

(** [Side]: selects whether an action starts from A or from B. *)
Inductive Side : Type := A | B.

Definition otherSide (side : Side) : Side :=
  match side with
  | A => B
  | B => A
  end.

(** [State] of codec/ibc/core/channel/v1/channel, the enumeration link.ts
    imports and compares connection states with. *)
Inductive State : Type :=
| STATE_UNINITIALIZED_UNSPECIFIED
| STATE_INIT
| STATE_TRYOPEN
| STATE_OPEN
| STATE_CLOSED.

Definition State_eqb (a b : State) : bool :=
  match a, b with
  | STATE_UNINITIALIZED_UNSPECIFIED, STATE_UNINITIALIZED_UNSPECIFIED
  | STATE_INIT, STATE_INIT
  | STATE_TRYOPEN, STATE_TRYOPEN
  | STATE_OPEN, STATE_OPEN
  | STATE_CLOSED, STATE_CLOSED => true
  | _, _ => false
  end.

(** [Height] of codec/ibc/core/client/v1/client; the [Long] fields are
    integers. *)
Record Height : Type := mkHeight {
  revisionNumber : Z;
  revisionHeight : Z
}.

(** The Tendermint client state, the fields link.ts reads. *)
Record ClientState : Type := mkClientState {
  chainId : string;
  latestHeight : option Height
}.

Record MerkleRoot : Type := mkMerkleRoot {
  hash : bytes
}.

Record Timestamp : Type := mkTimestamp {
  seconds : option Z
}.

(** The Tendermint consensus state. *)
Record ConsensusState : Type := mkConsensusState {
  timestamp : option Timestamp;
  root : option MerkleRoot;
  nextValidatorsHash : bytes
}.

(** A block header of a chain, the fields link.ts reads. *)
Record Header : Type := mkHeader {
  height : Z;
  time : Z;
  appHash : bytes;
  headerNextValidatorsHash : bytes
}.

Record Counterparty : Type := mkCounterparty {
  counterpartyClientId : string;
  counterpartyConnectionId : string
}.

(** A connection end. *)
Record ConnectionEnd : Type := mkConnectionEnd {
  clientId : string;
  state : State;
  counterparty : option Counterparty
}.

Record Packet : Type := mkPacket {
  sequence : Z;
  sourcePort : string;
  sourceChannel : string;
  destinationPort : string;
  destinationChannel : string;
  data : bytes;
  timeoutHeight : option Height;
  timeoutTimestamp : Z
}.

Record PacketWithMetadata : Type := mkPacketWithMetadata {
  packet : Packet;
  packetHeight : Z
}.

Record Ack : Type := mkAck {
  acknowledgement : bytes;
  originalPacket : Packet
}.

Record AckWithMetadata : Type := mkAckWithMetadata {
  ackHeight : Z;
  ack : Ack
}.

Record QueryOpts : Type := mkQueryOpts {
  minHeight : option Z
}.

(** [logs.Log] of @cosmjs/stargate. *)
Record Attribute : Type := mkAttribute {
  key : string;
  value : string
}.

Record Event : Type := mkEvent {
  type : string;
  attributes : list Attribute
}.

Record Log : Type := mkLog {
  msg_index : Z;
  log : string;
  events : list Event
}.

(** A handle on an [IbcClient], the signing client of one chain.  A link
    joins two of them. *)
Inductive IbcClient : Type := Chain1 | Chain2.

Record Endpoint : Type := mkEndpoint {
  client : IbcClient;
  clientID : string;
  connectionID : string
}.

Record EndpointPair : Type := mkEndpointPair {
  src : Endpoint;
  dest : Endpoint
}.

(** [Link]; the logger is left out, logging is not embedded. *)
Record Link : Type := mkLink {
  endA : Endpoint;
  endB : Endpoint
}.

Definition getEnds (this : Link) (src : Side) : EndpointPair :=
  match src with
  | A => {| src := endA this; dest := endB this |}
  | B => {| src := endB this; dest := endA this |}
  end.

(** [RelayedHeights], with the source's spelling of its first field. *)
Record RelayedHeights : Type := mkRelayedHeights {
  packetHeighA : option Z;
  packetHeightB : option Z;
  ackHeightA : option Z;
  ackHeightB : option Z
}.

(** [genesisUnbondingTime], in seconds. *)
Definition genesisUnbondingTime : Z := 1814400.

Definition idDelim : ascii := ":"%char.

Definition packetId (packet : Packet) : string :=
  (destinationPort packet ++ String idDelim (destinationChannel packet))%string.

Definition ackId (packet : Packet) : string :=
  (sourcePort packet ++ String idDelim (sourceChannel packet))%string.

(** ** Errors *)

(** One constructor per [throw] of the embedded code, and one for whatever
    a call on a collaborator throws. *)
Inductive Error : Type :=
| ConnectionNotFound (conn : string)
| CounterpartyNotFound (conn : string)
| ConnectionNotOpen (side : Side) (st : State)
| ClientIdMismatch (clientId conn counterpartyClientId counterpartyConn : string)
| ChainIdMismatch (chainId conn remoteChainId : string)
| NextValidatorHashMismatch
| RootHashMissing
| AppHashMismatch
| DestWithoutSrcConnection
| SrcWithoutDestConnection
| TypeError (msg : string)
| CollaboratorError (msg : string).

Definition State_toString (st : State) : string :=
  match st with
  | STATE_UNINITIALIZED_UNSPECIFIED => "0"
  | STATE_INIT => "1"
  | STATE_TRYOPEN => "2"
  | STATE_OPEN => "3"
  | STATE_CLOSED => "4"
  end.

Definition Side_toString (side : Side) : string :=
  match side with
  | A => "A"
  | B => "B"
  end.

(** [s] between double quotes. *)
Definition quoted (s : string) : string :=
  let dquote := ascii_of_nat 34 in
  String dquote (s ++ String dquote EmptyString)%string.

(** The message of the [Error] object the code throws. *)
Definition message (e : Error) : string :=
  (match e with
   | ConnectionNotFound conn => "Connection not found for ID " ++ conn
   | CounterpartyNotFound conn =>
       "Counterparty not found for connection with ID " ++ conn
   | ConnectionNotOpen side st =>
       "Connection " ++ Side_toString side
         ++ " must be in state open, it has state " ++ State_toString st
   | ClientIdMismatch cid conn ccid cconn =>
       "Client ID " ++ cid ++ " for connection with ID " ++ conn
         ++ " does not match counterparty client ID " ++ ccid
         ++ " for connection with ID " ++ cconn
   | ChainIdMismatch cid conn remote =>
       "Chain ID " ++ cid ++ " for connection with ID " ++ conn
         ++ " does not match remote chain ID " ++ remote
   | NextValidatorHashMismatch =>
       "NextValidatorHash doesn't match ConsensusState."
   | RootHashMissing => "ConsensusState.root.hash missing."
   | AppHashMismatch => "AppHash doesn't match ConsensusState."
   | DestWithoutSrcConnection =>
       "You have defined " ++ quoted "destConnection" ++ " but no "
         ++ quoted "srcConnection" ++ ". Both " ++ quoted "srcConnection"
         ++ " and " ++ quoted "destConnection" ++ " must be present."
   | SrcWithoutDestConnection =>
       "You have defined " ++ quoted "srcConnection" ++ " but no "
         ++ quoted "destConnection" ++ ". Both " ++ quoted "srcConnection"
         ++ " and " ++ quoted "destConnection" ++ " must be present."
   | TypeError msg => msg
   | CollaboratorError msg => msg
   end)%string.

Inductive Result (X : Type) : Type :=
| OK (x : X)
| Err (e : Error).
Arguments OK {X} x.
Arguments Err {X} e.

(** Modelled from the spec: the error kinds of its section 7; the code
    throws plain [Error] objects.  ConfigError is a missing or
    contradictory input, ConsensusError is on-chain state that contradicts
    an invariant (hash mismatch, chain-id mismatch, connection not OPEN, or
    queried state that is missing), ChainError is what a chain client
    reports. *)
Inductive ErrorKind : Type :=
| ConfigError
| ConsensusError
| ChainError
| RuntimeError.

Definition errorKind (e : Error) : ErrorKind :=
  match e with
  | ConnectionNotFound _ | CounterpartyNotFound _ | ConnectionNotOpen _ _
  | ClientIdMismatch _ _ _ _ | ChainIdMismatch _ _ _
  | NextValidatorHashMismatch | RootHashMissing | AppHashMismatch =>
      ConsensusError
  | DestWithoutSrcConnection | SrcWithoutDestConnection => ConfigError
  | TypeError _ => RuntimeError
  | CollaboratorError _ => ChainError
  end.

(** ** Calls on the collaborators *)

(** What [buildCreateClientArgs] returns. *)
Record CreateClientArgs : Type := mkCreateClientArgs {
  clientState : ClientState;
  consensusState : ConsensusState
}.

(** What [prepareConnectionHandshake] returns, the proofs of one step of
    the connection handshake; link.ts passes it on unread. *)
Record ConnectionHandshakeProof : Type := mkConnectionHandshakeProof {
  proofHeight : Height;
  proofConnection : bytes
}.

(** What [receivePackets] and [acknowledgePackets] return. *)
Record MsgResult : Type := mkMsgResult {
  logs : list Log;
  msgHeight : Z
}.

(** The calls link.ts makes on code that is not its own: the methods of an
    [IbcClient] (the first argument is the receiver), the two queries of an
    [Endpoint], and the helpers of ibcclient.ts.  The index is the type of
    the value the awaited call resolves to, reduced to the part link.ts
    reads. *)
Inductive Call : Type -> Type :=
| connection (node : IbcClient) (conn : string) : Call (option ConnectionEnd)
| getChainId (node : IbcClient) : Call string
| stateTm (node : IbcClient) (clientId : string) : Call ClientState
| consensusStateTm (node : IbcClient) (clientId : string)
    (height : option Height) : Call ConsensusState
| header (node : IbcClient) (height : Z) : Call Header
| latestHeader (node : IbcClient) : Call Header
| waitOneBlock (node : IbcClient) : Call unit
| doUpdateClient (node : IbcClient) (clientId : string) (src : IbcClient) :
    Call Height
| buildCreateClientArgs (remote : IbcClient) (unbondingPeriod : Z)
    (trustingPeriod : Z) : Call CreateClientArgs
| createTendermintClient (node : IbcClient) (clientState : ClientState)
    (consensusState : ConsensusState) : Call string
| connOpenInit (node : IbcClient) (clientId remoteClientId : string) :
    Call string
| prepareConnectionHandshake (src dest : IbcClient)
    (clientIdSrc clientIdDest connIdSrc : string) :
    Call ConnectionHandshakeProof
| connOpenTry (node : IbcClient) (clientId : string)
    (proof : ConnectionHandshakeProof) : Call string
| connOpenAck (node : IbcClient) (conn : string)
    (proof : ConnectionHandshakeProof) : Call unit
| connOpenConfirm (node : IbcClient) (proof : ConnectionHandshakeProof) :
    Call unit
| querySentPackets (e : Endpoint) (opts : QueryOpts) :
    Call (list PacketWithMetadata)
| queryWrittenAcks (e : Endpoint) (opts : QueryOpts) :
    Call (list AckWithMetadata)
| unreceivedPackets (node : IbcClient) (port channel : string)
    (sequences : list Z) : Call (list Z)
| unreceivedAcks (node : IbcClient) (port channel : string)
    (sequences : list Z) : Call (list Z)
| getPacketProof (node : IbcClient) (packet : Packet) (headerHeight : Height) :
    Call bytes
| getAckProof (node : IbcClient) (ack : AckWithMetadata)
    (headerHeight : Height) : Call bytes
| receivePackets (node : IbcClient) (packets : list Packet)
    (proofs : list bytes) (headerHeight : Height) : Call MsgResult
| acknowledgePackets (node : IbcClient) (acks : list AckWithMetadata)
    (proofs : list bytes) (headerHeight : Height) : Call MsgResult.

(** The calls that sign and broadcast a transaction: the handshake
    transactions, the client update and the two data-plane transactions.
    The others query a chain, wait for it, or gather proofs. *)
Definition broadcasts {X : Type} (c : Call X) : bool :=
  match c with
  | doUpdateClient _ _ _
  | createTendermintClient _ _ _
  | connOpenInit _ _ _
  | connOpenTry _ _ _
  | connOpenAck _ _ _
  | connOpenConfirm _ _
  | receivePackets _ _ _ _
  | acknowledgePackets _ _ _ _ => true
  | _ => false
  end.

(** ** Programs *)

(** An asynchronous function: it returns, throws, or awaits a call and
    goes on with what the call settled to. *)
Inductive Prog (R : Type) : Type :=
| Ret (r : R)
| Throw (e : Error)
| Do {X : Type} (c : Call X) (k : Result X -> Prog R).
Arguments Ret {R} r.
Arguments Throw {R} e.
Arguments Do {R X} c k.

Fixpoint bind {S R : Type} (p : Prog S) (f : S -> Prog R) : Prog R :=
  match p with
  | Ret s => f s
  | Throw e => Throw e
  | Do c k => Do c (fun r => bind (k r) f)
  end.

Notation "x <- p ;; q" := (bind p (fun x => q))
  (at level 61, p at next level, right associativity).
Notation "' pat <- p ;; q" := (bind p (fun x => match x with pat => q end))
  (at level 61, pat pattern, p at next level, right associativity).

(** [await c]: a rejected call is rethrown. *)
Definition await {X : Type} (c : Call X) : Prog X :=
  Do c (fun r => match r with
                 | OK x => Ret x
                 | Err e => Throw e
                 end).

(** The promise of an asynchronous function, run until it settles. *)
Fixpoint settle {R : Type} (p : Prog R) : Prog (Result R) :=
  match p with
  | Ret r => Ret (OK r)
  | Throw e => Ret (Err e)
  | Do c k => Do c (fun r => settle (k r))
  end.

Fixpoint settleAll {R : Type} (ps : list (Prog R)) : Prog (list (Result R)) :=
  match ps with
  | [] => Ret []
  | p :: ps' =>
      r <- settle p ;;
      rs <- settleAll ps' ;;
      Ret (r :: rs)
  end.

Fixpoint fulfilled {R : Type} (rs : list (Result R)) : Result (list R) :=
  match rs with
  | [] => OK []
  | Err e :: _ => Err e
  | OK x :: rs' =>
      match fulfilled rs' with
      | OK xs => OK (x :: xs)
      | Err e => Err e
      end
  end.

(** [await Promise.all(ps)].  Every promise of the array was started and
    runs on whether or not another one rejects.  The source starts all the
    branches before any call is answered, and the calls of different
    branches are answered in an order that the event loop and the chains
    decide; here the calls of a branch are all answered before those of
    the next branch of the array, and of several rejections the one of the
    leftmost branch is thrown.  For branches of one call each this is the
    order of the array; for branches of several calls it is one order
    among others, and what is stated of such a program is stated so that
    it does not rest on that order.  [Promise_all2_scheduled] below
    leaves the order of a pair open. *)
Definition Promise_all {R : Type} (ps : list (Prog R)) : Prog (list R) :=
  rs <- settleAll ps ;;
  match fulfilled rs with
  | OK xs => Ret xs
  | Err e => Throw e
  end.

(** [Promise.all] of a pair. *)
Definition Promise_all2 {R1 R2 : Type} (p1 : Prog R1) (p2 : Prog R2) :
  Prog (R1 * R2) :=
  r1 <- settle p1 ;;
  r2 <- settle p2 ;;
  match r1, r2 with
  | OK x1, OK x2 => Ret (x1, x2)
  | Err e, _ => Throw e
  | _, Err e => Throw e
  end.


(** [Promise.all] of four. *)
Definition Promise_all4 {R1 R2 R3 R4 : Type}
  (p1 : Prog R1) (p2 : Prog R2) (p3 : Prog R3) (p4 : Prog R4) :
  Prog (R1 * R2 * R3 * R4) :=
  r1 <- settle p1 ;;
  r2 <- settle p2 ;;
  r3 <- settle p3 ;;
  r4 <- settle p4 ;;
  match r1, r2, r3, r4 with
  | OK x1, OK x2, OK x3, OK x4 => Ret (x1, x2, x3, x4)
  | Err e, _, _, _ => Throw e
  | _, Err e, _, _ => Throw e
  | _, _, Err e, _ => Throw e
  | _, _, _, Err e => Throw e
  end.

(** One awaited call of a run and what it settled to. *)
Inductive Step : Type :=
| step {X : Type} (c : Call X) (r : Result X).

Definition stepBroadcasts (s : Step) : bool :=
  match s with
  | step c _ => broadcasts c
  end.

(** The transactions of a trace. *)
Definition transactions (t : list Step) : list Step :=
  filter stepBroadcasts t.

Section Run.
(** The two chains: a state [World], and a handler that settles each
    call and moves the state. *)
Context {World : Type}.
Variable handler : forall X : Type, Call X -> World -> Result X * World.

(** Running a program: the calls it made with their outcomes, its own
    outcome, and the state it leaves. *)
Fixpoint run {R : Type} (p : Prog R) (w : World) :
  list Step * Result R * World :=
  match p with
  | Ret r => ([], OK r, w)
  | Throw e => ([], Err e, w)
  | Do c k =>
      let '(r, w1) := handler _ c w in
      let '(t, out, w2) := run (k r) w1 in
      (step c r :: t, out, w2)
  end.

Definition trace {R : Type} (p : Prog R) (w : World) : list Step :=
  fst (fst (run p w)).

Definition outcome {R : Type} (p : Prog R) (w : World) : Result R :=
  snd (fst (run p w)).
End Run.

(** ** JavaScript objects used as records from string keys *)

(** Own keys in insertion order, as [Object.entries] lists them (the keys
    here hold [idDelim], none is an array index). *)
Definition Record_ (V : Type) : Type := list (string * V).

(** [o[key]]; [None] is [undefined]. *)
Fixpoint lookup {V : Type} (o : Record_ V) (key : string) : option V :=
  match o with
  | [] => None
  | (k, v) :: o' => if String.eqb k key then Some v else lookup o' key
  end.

(** [{...o, [key]: v}]: a key already present keeps its place. *)
Fixpoint assign {V : Type} (o : Record_ V) (key : string) (v : V)
  : Record_ V :=
  match o with
  | [] => [(key, v)]
  | (k, v') :: o' =>
      if String.eqb k key then (k, v) :: o' else (k, v') :: assign o' key v
  end.

(** [set.has(x)] for the [Set] built from the array [set]. *)
Definition has (set : list Z) (x : Z) : bool := existsb (Z.eqb x) set.

(** [xs.filter(pred)] for a predicate that may throw. *)
Fixpoint filterThrowing {T : Type} (pred : T -> Result bool) (xs : list T) :
  Result (list T) :=
  match xs with
  | [] => OK []
  | x :: xs' =>
      match pred x with
      | Err e => Err e
      | OK keep =>
          match filterThrowing pred xs' with
          | Err e => Err e
          | OK ys => OK (if keep then x :: ys else ys)
          end
      end
  end.

Definition liftResult {R : Type} (r : Result R) : Prog R :=
  match r with
  | OK x => Ret x
  | Err e => Throw e
  end.

(** ** utils.ts *)

(** Modelled from the spec: [toIntHeight] of utils.ts, whose code is not
    at hand; the height a light client knows is the revision height, and
    0 when there is none, the expression [updateClientToHeight] and
    [lastKnownHeader] write inline. *)
Definition toIntHeight (height : option Height) : Z :=
  match height with
  | Some h => revisionHeight h
  | None => 0
  end.

(** ** link.ts *)

(** [updateClient]: writes the latest header of the sender chain to the
    other endpoint. *)
Definition updateClient (this : Link) (sender : Side) : Prog Height :=
  let ends := getEnds this sender in
  let src := src ends in
  let dest := dest ends in
  height <- await (doUpdateClient (client dest) (clientID dest) (client src)) ;;
  Ret height.

Definition updateClientToHeight (this : Link) (source : Side)
  (minHeight : number) : Prog Height :=
  let ends := getEnds this source in
  let src := src ends in
  let dest := dest ends in
  client_ <- await (stateTm (client dest) (clientID dest)) ;;
  let knownHeight :=
    match latestHeight client_ with
    | Some h => revisionHeight h
    | None => 0
    end in
  match geb_number knownHeight minHeight, latestHeight client_ with
  | true, Some known => Ret known
  | _, _ =>
      currentHeader <- await (latestHeader (client src)) ;;
      let curHeight := height currentHeader in
      _ <- (if ltb_number curHeight minHeight
            then await (waitOneBlock (client src))
            else Ret tt) ;;
      updateClient this source
  end.

Definition assertHeadersMatchConsensusState (this : Link) (proofSide : Side)
  (clientId : string) (height : option Height) : Prog unit :=
  let ends := getEnds this proofSide in
  let src := src ends in
  let dest := dest ends in
  '(consensusState, header_) <-
    Promise_all2
      (await (consensusStateTm (client src) clientId height))
      (await (header (client dest) (toIntHeight height))) ;;
  if negb (arrayContentEquals (nextValidatorsHash consensusState)
             (headerNextValidatorsHash header_))
  then Throw NextValidatorHashMismatch
  else
    match option_map hash (root consensusState) with
    | None => Throw RootHashMissing
    | Some hash_ =>
        if negb (arrayContentEquals hash_ (appHash header_))
        then Throw AppHashMismatch
        else Ret tt
    end.

Definition createWithExistingConnections (nodeA nodeB : IbcClient)
  (connA connB : string) : Prog Link :=
  '(connectionA, connectionB) <-
    Promise_all2 (await (connection nodeA connA))
                 (await (connection nodeB connB)) ;;
  match connectionA, connectionB with
  | None, _ => Throw (ConnectionNotFound connA)
  | Some _, None => Throw (ConnectionNotFound connB)
  | Some connectionA, Some connectionB =>
      match counterparty connectionA, counterparty connectionB with
      | None, _ => Throw (CounterpartyNotFound connA)
      | Some _, None => Throw (CounterpartyNotFound connB)
      | Some counterpartyA, Some counterpartyB =>
          if negb (State_eqb (state connectionA) STATE_OPEN)
          then Throw (ConnectionNotOpen A (state connectionA))
          else if negb (State_eqb (state connectionB) STATE_OPEN)
          then Throw (ConnectionNotOpen B (state connectionB))
          else
            let clientIdA := clientId connectionA in
            let clientIdB := clientId connectionB in
            if negb (String.eqb clientIdA (counterpartyClientId counterpartyB))
            then Throw (ClientIdMismatch clientIdA connA
                          (counterpartyClientId counterpartyB) connB)
            else if negb (String.eqb clientIdB
                            (counterpartyClientId counterpartyA))
            then Throw (ClientIdMismatch clientIdB connB
                          (counterpartyClientId counterpartyA) connA)
            else
              '(chainIdA, chainIdB, clientStateA, clientStateB) <-
                Promise_all4 (await (getChainId nodeA))
                             (await (getChainId nodeB))
                             (await (stateTm nodeA clientIdA))
                             (await (stateTm nodeB clientIdB)) ;;
              if negb (String.eqb chainIdA (chainId clientStateB))
              then Throw (ChainIdMismatch chainIdA connA
                            (chainId clientStateA))
              else if negb (String.eqb chainIdB (chainId clientStateA))
              then Throw (ChainIdMismatch chainIdB connB
                            (chainId clientStateB))
              else
                let endA := mkEndpoint nodeA clientIdA connA in
                let endB := mkEndpoint nodeB clientIdB connB in
                let link := mkLink endA endB in
                _ <- Promise_all2
                       (assertHeadersMatchConsensusState link A clientIdA
                          (latestHeight clientStateA))
                       (assertHeadersMatchConsensusState link B clientIdB
                          (latestHeight clientStateB)) ;;
                Ret link
      end
  end.

(** [createClients]: the client on B that points to A, then the client on
    A that points to B. *)
Definition createClients (nodeA nodeB : IbcClient) : Prog (string * string) :=
  args <- await (buildCreateClientArgs nodeA genesisUnbondingTime 5000) ;;
  clientIdB <- await (createTendermintClient nodeB (clientState args)
                        (consensusState args)) ;;
  args2 <- await (buildCreateClientArgs nodeB genesisUnbondingTime 5000) ;;
  clientIdA <- await (createTendermintClient nodeA (clientState args2)
                        (consensusState args2)) ;;
  Ret (clientIdA, clientIdB).

Definition createWithNewConnections (nodeA nodeB : IbcClient) : Prog Link :=
  '(clientIdA, clientIdB) <- createClients nodeA nodeB ;;
  connIdA <- await (connOpenInit nodeA clientIdA clientIdB) ;;
  proof <- await (prepareConnectionHandshake nodeA nodeB clientIdA clientIdB
                    connIdA) ;;
  connIdB <- await (connOpenTry nodeB clientIdB proof) ;;
  proofAck <- await (prepareConnectionHandshake nodeB nodeA clientIdB clientIdA
                       connIdB) ;;
  _ <- await (connOpenAck nodeA connIdA proofAck) ;;
  proofConfirm <- await (prepareConnectionHandshake nodeA nodeB clientIdA
                           clientIdB connIdA) ;;
  _ <- await (connOpenConfirm nodeB proofConfirm) ;;
  let endA := mkEndpoint nodeA clientIdA connIdA in
  let endB := mkEndpoint nodeB clientIdB connIdB in
  Ret (mkLink endA endB).

(** [filterUnreceived]: the sequences are grouped under [idFunc], each
    group is asked about in one query, and the answers are stored under
    the same keys.  A key is [port:channel], so that its split has the
    two parts the destructuring reads. *)
Definition filterUnreceived (packets : list Packet)
  (unreceivedQuery : string -> string -> list Z -> Prog (list Z))
  (idFunc : Packet -> string) : Prog (Record_ (list Z)) :=
  match packets with
  | [] => Ret []
  | _ :: _ =>
      let packetsPerDestination :=
        fold_left
          (fun (sorted : Record_ (list Z)) packet =>
             let key := idFunc packet in
             assign sorted key
               (match lookup sorted key with
                | Some sequences => sequences
                | None => []
                end ++ [sequence packet]))
          packets [] in
      unreceivedResponses <-
        Promise_all
          (map (fun '(destination, sequences) =>
                  let parts := split_at idDelim destination in
                  let port := nth 0 parts EmptyString in
                  let channel := nth 1 parts EmptyString in
                  notfound <- unreceivedQuery port channel sequences ;;
                  Ret (destination, notfound))
             packetsPerDestination) ;;
      let unreceived :=
        fold_left
          (fun (nested : Record_ (list Z)) '(key, sequences) =>
             assign nested key sequences)
          unreceivedResponses [] in
      Ret unreceived
  end.

(** [unreceived[id].has(seq)]; reading [has] of [undefined] throws. *)
Definition isUnreceived (unreceived : Record_ (list Z)) (id : string)
  (seq : Z) : Result bool :=
  match lookup unreceived id with
  | Some set => OK (has set seq)
  | None => Err (TypeError "Cannot read property 'has' of undefined")
  end.

Definition getPendingPackets (this : Link) (source : Side) (opts : QueryOpts) :
  Prog (list PacketWithMetadata) :=
  let ends := getEnds this source in
  let src := src ends in
  let dest := dest ends in
  allPackets <- await (querySentPackets src opts) ;;
  let toFilter := map packet allPackets in
  let query := fun port channel sequences =>
    res <- await (unreceivedPackets (client dest) port channel sequences) ;;
    Ret res in
  unreceived <- filterUnreceived toFilter query packetId ;;
  liftResult
    (filterThrowing
       (fun p => isUnreceived unreceived (packetId (packet p))
                   (sequence (packet p)))
       allPackets).

Definition getPendingAcks (this : Link) (source : Side) (opts : QueryOpts) :
  Prog (list AckWithMetadata) :=
  let ends := getEnds this source in
  let src := src ends in
  let dest := dest ends in
  allAcks <- await (queryWrittenAcks src opts) ;;
  let toFilter := map (fun a => originalPacket (ack a)) allAcks in
  let query := fun port channel sequences =>
    res <- await (unreceivedAcks (client dest) port channel sequences) ;;
    Ret res in
  unreceived <- filterUnreceived toFilter query ackId ;;
  liftResult
    (filterThrowing
       (fun a => isUnreceived unreceived (ackId (originalPacket (ack a)))
                   (sequence (originalPacket (ack a))))
       allAcks).

(** [Math.max(...xs.map((x) => x.height)) + 1], the height the relay
    functions ask the destination's client to reach. *)
Definition neededHeight (heights : list Z) : number :=
  number_add (Math_max heights) 1.

(** [relayAcks]: returns the height of the block the acks were included
    in. *)
Definition relayAcks (this : Link) (source : Side)
  (acks : list AckWithMetadata) : Prog Z :=
  let ends := getEnds this source in
  let src := src ends in
  let dest := dest ends in
  let neededHeight := neededHeight (map ackHeight acks) in
  headerHeight <- updateClientToHeight this source neededHeight ;;
  proofs <- Promise_all
              (map (fun ack => await (getAckProof (client src) ack
                                        headerHeight)) acks) ;;
  res <- await (acknowledgePackets (client dest) acks proofs headerHeight) ;;
  Ret (msgHeight res).

Section Relay.
(** [parseAcksFromLogs] of utils.ts, whose code is not at hand: the
    acknowledgements written by the transaction that has these logs. *)
Variable parseAcksFromLogs : list Log -> list Ack.

(** [relayPackets]: returns the acks of the packets just submitted. *)
Definition relayPackets (this : Link) (source : Side)
  (packets : list PacketWithMetadata) : Prog (list AckWithMetadata) :=
  let ends := getEnds this source in
  let src := src ends in
  let dest := dest ends in
  let neededHeight := neededHeight (map packetHeight packets) in
  headerHeight <- updateClientToHeight this source neededHeight ;;
  let submit := map packet packets in
  proofs <- Promise_all
              (map (fun packet => await (getPacketProof (client src) packet
                                           headerHeight)) submit) ;;
  res <- await (receivePackets (client dest) submit proofs headerHeight) ;;
  let acks := parseAcksFromLogs (logs res) in
  Ret (map (fun ack => mkAckWithMetadata (msgHeight res) ack) acks).

Definition checkAndRelayPacketsAndAcks (this : Link)
  (relayFrom : RelayedHeights) : Prog RelayedHeights :=
  '(packetsA, packetsB) <-
    Promise_all2
      (getPendingPackets this A (mkQueryOpts (packetHeighA relayFrom)))
      (getPendingPackets this B (mkQueryOpts (packetHeightB relayFrom))) ;;
  _ <- Promise_all2 (relayPackets this A packetsA)
                    (relayPackets this B packetsB) ;;
  '(acksA, acksB) <-
    Promise_all2
      (getPendingAcks this A (mkQueryOpts (ackHeightA relayFrom)))
      (getPendingAcks this B (mkQueryOpts (ackHeightB relayFrom))) ;;
  _ <- Promise_all2 (relayAcks this A acksA) (relayAcks this B acksB) ;;
  Ret relayFrom.

End Relay.

(** ** ics20.ts *)

Module Ics20.
(** [AppConfig], the two fields [resolveConnections] reads. *)
Record AppConfig : Type := mkAppConfig {
  srcConnection : option string;
  destConnection : option string
}.

(** [Connections] when it is not [null]. *)
Record Connections : Type := mkConnections {
  src : string;
  dest : string
}.

(** [resolveConnections]; [None] is [null]. *)
Definition resolveConnections (app : AppConfig) :
  Result (option Connections) :=
  if negb (truthy (srcConnection app)) && truthy (destConnection app)
  then Err DestWithoutSrcConnection
  else if truthy (srcConnection app) && negb (truthy (destConnection app))
  then Err SrcWithoutDestConnection
  else
    match srcConnection app, destConnection app with
    | Some s, Some d =>
        if truthy (Some s) && truthy (Some d)
        then OK (Some {| src := s; dest := d |})
        else OK None
    | _, _ => OK None
    end.
End Ics20.

(** ** A pair of chains to run the programs on *)

Module Sim.
(** Modelled from the spec: the chain signing client of its section 4.1
    (the code of ibcclient.ts and endpoint.ts is not at hand), reduced to what
    the calls of link.ts observe.  A chain has a latest block, one light
    client of its counterparty with the latest height and consensus
    state it stores, its connections, the packets it sent and the acks
    it wrote with the heights they were committed at, and the sequences
    it has received and has seen acknowledged.  [waitOneBlock] advances
    the chain by one block; [doUpdateClient] stores the latest height
    of the source and returns it; a data-plane transaction is included
    in the next block. *)
Record Chain : Type := mkChain {
  name : string;
  tip : Z;
  appHashOf : bytes;
  validatorsHash : bytes;
  clientHeight : option Z;
  storedRoot : option MerkleRoot;
  storedValidatorsHash : bytes;
  connections : Record_ ConnectionEnd;
  sent : list PacketWithMetadata;
  received : list Z;
  writtenAcks : list AckWithMetadata;
  acked : list Z
}.

Record World : Type := mkWorld {
  chain1 : Chain;
  chain2 : Chain
}.

Definition chainOf (node : IbcClient) (w : World) : Chain :=
  match node with
  | Chain1 => chain1 w
  | Chain2 => chain2 w
  end.

Definition other (node : IbcClient) : IbcClient :=
  match node with
  | Chain1 => Chain2
  | Chain2 => Chain1
  end.

Definition setChain (node : IbcClient) (c : Chain) (w : World) : World :=
  match node with
  | Chain1 => {| chain1 := c; chain2 := chain2 w |}
  | Chain2 => {| chain1 := chain1 w; chain2 := c |}
  end.

Definition withTip (z : Z) (c : Chain) : Chain :=
  mkChain (name c) z (appHashOf c) (validatorsHash c) (clientHeight c)
    (storedRoot c) (storedValidatorsHash c) (connections c) (sent c)
    (received c) (writtenAcks c) (acked c).

Definition withClient (h : option Z) (r : option MerkleRoot) (v : bytes)
  (c : Chain) : Chain :=
  mkChain (name c) (tip c) (appHashOf c) (validatorsHash c) h r v
    (connections c) (sent c) (received c) (writtenAcks c) (acked c).

Definition withConnections (cs : Record_ ConnectionEnd) (c : Chain) : Chain :=
  mkChain (name c) (tip c) (appHashOf c) (validatorsHash c) (clientHeight c)
    (storedRoot c) (storedValidatorsHash c) cs (sent c) (received c)
    (writtenAcks c) (acked c).

Definition withReceived (rs : list Z) (acks : list AckWithMetadata)
  (c : Chain) : Chain :=
  mkChain (name c) (tip c) (appHashOf c) (validatorsHash c) (clientHeight c)
    (storedRoot c) (storedValidatorsHash c) (connections c) (sent c) rs
    acks (acked c).

Definition withAcked (rs : list Z) (c : Chain) : Chain :=
  mkChain (name c) (tip c) (appHashOf c) (validatorsHash c) (clientHeight c)
    (storedRoot c) (storedValidatorsHash c) (connections c) (sent c)
    (received c) (writtenAcks c) rs.

Definition headerAt (c : Chain) (h : Z) : Header :=
  {| height := h; time := h; appHash := appHashOf c;
     headerNextValidatorsHash := validatorsHash c |}.

Definition since {T : Type} (heightOf : T -> Z) (opts : QueryOpts)
  (xs : list T) : list T :=
  match minHeight opts with
  | Some m => filter (fun x => m <=? heightOf x) xs
  | None => xs
  end.

Definition setState (st : State) (conn : string)
  (cs : Record_ ConnectionEnd) : Record_ ConnectionEnd :=
  match lookup cs conn with
  | Some c => assign cs conn (mkConnectionEnd (clientId c) st (counterparty c))
  | None => cs
  end.

(** The one light client and the one connection a chain mints. *)
Definition mintedClient : string := "07-tendermint-0".
Definition mintedConnection : string := "connection-0".

Definition handler (X : Type) (c : Call X) (w : World) : Result X * World :=
  match c in Call X return Result X * World with
  | connection node conn => (OK (lookup (connections (chainOf node w)) conn), w)
  | getChainId node => (OK (name (chainOf node w)), w)
  | stateTm node _ =>
      (OK {| chainId := name (chainOf (other node) w);
             latestHeight :=
               option_map (mkHeight 0) (clientHeight (chainOf node w)) |}, w)
  | consensusStateTm node _ _ =>
      (OK {| timestamp := None;
             root := storedRoot (chainOf node w);
             nextValidatorsHash := storedValidatorsHash (chainOf node w) |},
       w)
  | header node h => (OK (headerAt (chainOf node w) h), w)
  | latestHeader node =>
      (OK (headerAt (chainOf node w) (tip (chainOf node w))), w)
  | waitOneBlock node =>
      (OK tt,
       setChain node (withTip (tip (chainOf node w) + 1) (chainOf node w)) w)
  | doUpdateClient node _ source =>
      let s := chainOf source w in
      (OK (mkHeight 0 (tip s)),
       setChain node
         (withClient (Some (tip s)) (Some (mkMerkleRoot (appHashOf s)))
            (validatorsHash s) (chainOf node w)) w)
  | buildCreateClientArgs remote _ _ =>
      let r := chainOf remote w in
      (OK {| clientState :=
               {| chainId := name r;
                  latestHeight := Some (mkHeight 0 (tip r)) |};
             consensusState :=
               {| timestamp := None;
                  root := Some (mkMerkleRoot (appHashOf r));
                  nextValidatorsHash := validatorsHash r |} |}, w)
  | createTendermintClient node cs consensus =>
      (OK mintedClient,
       setChain node
         (withClient (option_map revisionHeight (latestHeight cs))
            (root consensus) (nextValidatorsHash consensus)
            (chainOf node w)) w)
  | connOpenInit node cid remote =>
      (OK mintedConnection,
       setChain node
         (withConnections
            (assign (connections (chainOf node w)) mintedConnection
               (mkConnectionEnd cid STATE_INIT
                  (Some (mkCounterparty remote EmptyString))))
            (chainOf node w)) w)
  | prepareConnectionHandshake source _ _ _ _ =>
      (OK (mkConnectionHandshakeProof (mkHeight 0 (tip (chainOf source w)))
             []), w)
  | connOpenTry node cid _ =>
      (OK mintedConnection,
       setChain node
         (withConnections
            (assign (connections (chainOf node w)) mintedConnection
               (mkConnectionEnd cid STATE_TRYOPEN
                  (Some (mkCounterparty mintedClient mintedConnection))))
            (chainOf node w)) w)
  | connOpenAck node conn _ =>
      (OK tt,
       setChain node
         (withConnections
            (setState STATE_OPEN conn (connections (chainOf node w)))
            (chainOf node w)) w)
  | connOpenConfirm node _ =>
      (OK tt,
       setChain node
         (withConnections
            (setState STATE_OPEN mintedConnection
               (connections (chainOf node w)))
            (chainOf node w)) w)
  | querySentPackets e opts =>
      (OK (since packetHeight opts (sent (chainOf (client e) w))), w)
  | queryWrittenAcks e opts =>
      (OK (since ackHeight opts (writtenAcks (chainOf (client e) w))), w)
  | unreceivedPackets node _ _ sequences =>
      (OK (filter (fun s => negb (has (received (chainOf node w)) s))
             sequences), w)
  | unreceivedAcks node _ _ sequences =>
      (OK (filter (fun s => negb (has (acked (chainOf node w)) s))
             sequences), w)
  | getPacketProof _ _ _ => (OK [], w)
  | getAckProof _ _ _ => (OK [], w)
  | receivePackets node packets _ _ =>
      let c := chainOf node w in
      let h := tip c + 1 in
      (OK (mkMsgResult [] h),
       setChain node
         (withTip h
            (withReceived (received c ++ map sequence packets)
               (writtenAcks c
                  ++ map (fun p => mkAckWithMetadata h (mkAck [] p)) packets)
               c)) w)
  | acknowledgePackets node acks _ _ =>
      let c := chainOf node w in
      let h := tip c + 1 in
      (OK (mkMsgResult [] h),
       setChain node
         (withTip h
            (withAcked
               (acked c
                  ++ map (fun a => sequence (originalPacket (ack a))) acks)
               c)) w)
  end.

(** The transaction logs carry nothing here. *)
Definition parseAcksFromLogs (logs : list Log) : list Ack := [].

(** Two chains that have adopted each other: each holds a light client
    of the other at height 5, with the consensus state of the other,
    and an open connection [connection-0]. *)
Definition connected (cid ccid : string) : ConnectionEnd :=
  mkConnectionEnd cid STATE_OPEN (Some (mkCounterparty ccid "connection-0")).

Definition chainA (cid : string) (packets : list PacketWithMetadata) : Chain :=
  {| name := "network-1"; tip := 5;
     appHashOf := [x0a]; validatorsHash := [x0b];
     clientHeight := Some 5;
     storedRoot := Some (mkMerkleRoot [x14]);
     storedValidatorsHash := [x15];
     connections := [("connection-0", connected cid "07-tendermint-0")];
     sent := packets; received := []; writtenAcks := []; acked := [] |}.

Definition chainB (root : option MerkleRoot) : Chain :=
  {| name := "network-2"; tip := 5;
     appHashOf := [x14]; validatorsHash := [x15];
     clientHeight := Some 5;
     storedRoot := root;
     storedValidatorsHash := [x0b];
     connections :=
       [("connection-0", connected "07-tendermint-0" "07-tendermint-0")];
     sent := []; received := []; writtenAcks := []; acked := [] |}.

(** Both sides agree and nothing is pending. *)
Definition quiet : World :=
  {| chain1 := chainA "07-tendermint-0" [];
     chain2 := chainB (Some (mkMerkleRoot [x0a])) |}.

Definition transfer (seq : Z) : Packet :=
  {| sequence := seq;
     sourcePort := "transfer"; sourceChannel := "channel-0";
     destinationPort := "transfer"; destinationChannel := "channel-0";
     data := []; timeoutHeight := None; timeoutTimestamp := 0 |}.

(** Chain A has sent packet 1 at height 100, and is at block 100. *)
Definition onePacket : World :=
  {| chain1 :=
       withTip 100
         (chainA "07-tendermint-0" [mkPacketWithMetadata (transfer 1) 100]);
     chain2 := chainB (Some (mkMerkleRoot [x0a])) |}.

(** The consensus state B stores does not have the app hash of A. *)
Definition forked : World :=
  {| chain1 := chainA "07-tendermint-0" [];
     chain2 := chainB (Some (mkMerkleRoot [xff])) |}.

(** Two chains that have not met. *)
Definition fresh : World :=
  {| chain1 :=
       withConnections [] (withClient None None [] (chainA EmptyString []));
     chain2 := withConnections [] (withClient None None [] (chainB None)) |}.

Definition link : Link :=
  {| endA := mkEndpoint Chain1 "07-tendermint-0" "connection-0";
     endB := mkEndpoint Chain2 "07-tendermint-0" "connection-0" |}.
End Sim.

(** ** The rest of link.ts *)

(** The first reduction of [filterUnreceived]: the sequences of the
    packets, each under the id of its packet, the ids in the order they
    first appear. *)
Definition packetsPerDestination (idFunc : Packet -> string)
  (packets : list Packet) : Record_ (list Z) :=
  fold_left
    (fun (sorted : Record_ (list Z)) packet =>
       let key := idFunc packet in
       assign sorted key
         (match lookup sorted key with
          | Some sequences => sequences
          | None => []
          end ++ [sequence packet]))
    packets [].

(** The second reduction of [filterUnreceived]: the answers under their
    keys. *)
Definition unreceivedOf (unreceivedResponses : list (string * list Z)) :
  Record_ (list Z) :=
  fold_left
    (fun (nested : Record_ (list Z)) '(key, sequences) =>
       assign nested key sequences)
    unreceivedResponses [].

(** [lastKnownHeader]: the last height that this side knows of the other
    chain. *)
Definition lastKnownHeader (this : Link) (side : Side) : Prog Z :=
  let ends := getEnds this side in
  let src := src ends in
  client_ <- await (stateTm (client src) (clientID src)) ;;
  Ret (match latestHeight client_ with
       | Some h => revisionHeight h
       | None => 0
       end).

Section Stale.
(** [timestampFromDateNanos(date).seconds.toNumber()]; the helper is in
    utils.ts, whose code is not at hand. *)
Variable secondsOfDate : Z -> Z.

(** [updateClientIfStale]: [None] is [null]; [maxAge] is a number of
    seconds.  A number is truthy when it is not 0. *)
Definition updateClientIfStale (this : Link) (sender : Side) (maxAge : Z) :
  Prog (option Height) :=
  let ends := getEnds this sender in
  let src := src ends in
  let dest := dest ends in
  knownHeader <- await (consensusStateTm (client dest) (clientID dest) None) ;;
  currentHeader <- await (latestHeader (client src)) ;;
  let knownSeconds :=
    match timestamp knownHeader with
    | Some ts => seconds ts
    | None => None
    end in
  let update := (h <- updateClient this sender ;; Ret (Some h)) in
  match knownSeconds with
  | Some known =>
      if negb (known =? 0)
      then
        let curSeconds := secondsOfDate (time currentHeader) in
        if curSeconds - known <? maxAge then Ret None else update
      else update
  | None => update
  end.
End Stale.

(** [resolveLink] of ics20.ts; [None] is [null]. *)
Definition resolveLink (nodeA nodeB : IbcClient)
  (connections : option Ics20.Connections) : Prog Link :=
  match connections with
  | Some c =>
      link <- createWithExistingConnections nodeA nodeB (Ics20.src c)
                (Ics20.dest c) ;;
      Ret link
  | None =>
      link <- createWithNewConnections nodeA nodeB ;;
      Ret link
  end.

(** ** Channels *)

Module Channel.
(** [Order] of codec/ibc/core/channel/v1/channel. *)
Inductive Order : Type :=
| ORDER_NONE_UNSPECIFIED
| ORDER_UNORDERED
| ORDER_ORDERED.

(** [ChannelInfo] of ibcclient.ts. *)
Record ChannelInfo : Type := mkChannelInfo {
  portId : string;
  channelId : string
}.

Record ChannelPair : Type := mkChannelPair {
  src : ChannelInfo;
  dest : ChannelInfo
}.

(** What [prepareChannelHandshake] returns; link.ts passes it on unread. *)
Record ChannelHandshakeProof : Type := mkChannelHandshakeProof {
  channelProofHeight : Height;
  proofChannel : bytes
}.

(** The calls of the channel handshake: four methods of an [IbcClient]
    (the first argument is the receiver) and [prepareChannelHandshake] of
    ibcclient.ts.  The index is the part of the awaited value that link.ts
    reads. *)
Inductive Call : Type -> Type :=
| channelOpenInit (node : IbcClient) (portId remotePortId : string)
    (ordering : Order) (connectionId version : string) : Call string
| prepareChannelHandshake (src dest : IbcClient)
    (clientIdDest portId channelId : string) : Call ChannelHandshakeProof
| channelOpenTry (node : IbcClient) (portId : string) (remote : ChannelInfo)
    (ordering : Order) (connectionId version counterpartyVersion : string)
    (proof : ChannelHandshakeProof) : Call string
| channelOpenAck (node : IbcClient)
    (portId channelId counterpartyChannelId counterpartyVersion : string)
    (proof : ChannelHandshakeProof) : Call unit
| channelOpenConfirm (node : IbcClient) (portId channelId : string)
    (proof : ChannelHandshakeProof) : Call unit.

(** The four steps of the handshake are transactions; preparing a proof
    is a call on a helper. *)
Definition broadcasts {X : Type} (c : Call X) : bool :=
  match c with
  | prepareChannelHandshake _ _ _ _ _ => false
  | _ => true
  end.

(** An asynchronous function over these calls. *)
Inductive Prog (R : Type) : Type :=
| Ret (r : R)
| Throw (e : Error)
| Do {X : Type} (c : Call X) (k : Result X -> Prog R).
Arguments Ret {R} r.
Arguments Throw {R} e.
Arguments Do {R X} c k.

Fixpoint bind {S R : Type} (p : Prog S) (f : S -> Prog R) : Prog R :=
  match p with
  | Ret s => f s
  | Throw e => Throw e
  | Do c k => Do c (fun r => bind (k r) f)
  end.

Definition await {X : Type} (c : Call X) : Prog X :=
  Do c (fun r => match r with
                 | OK x => Ret x
                 | Err e => Throw e
                 end).

Inductive Step : Type :=
| step {X : Type} (c : Call X) (r : Result X).

Definition stepBroadcasts (s : Step) : bool :=
  match s with
  | step c _ => broadcasts c
  end.

Definition stepOK (s : Step) : bool :=
  match s with
  | step _ (OK _) => true
  | step _ (Err _) => false
  end.

Fixpoint run {World R : Type}
  (handler : forall X : Type, Call X -> World -> Result X * World)
  (p : Prog R) (w : World) : list Step * Result R * World :=
  match p with
  | Ret r => ([], OK r, w)
  | Throw e => ([], Err e, w)
  | Do c k =>
      let '(r, w1) := handler _ c w in
      let '(t, out, w2) := run handler (k r) w1 in
      (step c r :: t, out, w2)
  end.

(** [createChannel] of link.ts. *)
Definition createChannel (this : Link) (sender : Side)
  (srcPort destPort : string) (ordering : Order) (version : string) :
  Prog ChannelPair :=
  match getEnds this sender with
  | mkEndpointPair src dest =>
      bind (await (channelOpenInit (client src) srcPort destPort ordering
                     (connectionID src) version))
        (fun channelIdSrc =>
      bind (await (prepareChannelHandshake (client src) (client dest)
                     (clientID dest) srcPort channelIdSrc))
        (fun proof =>
      bind (await (channelOpenTry (client dest) destPort
                     (mkChannelInfo srcPort channelIdSrc) ordering
                     (connectionID src) version version proof))
        (fun channelIdDest =>
      bind (await (prepareChannelHandshake (client dest) (client src)
                     (clientID src) destPort channelIdDest))
        (fun proofAck =>
      bind (await (channelOpenAck (client src) srcPort channelIdSrc
                     channelIdDest version proofAck))
        (fun _ =>
      bind (await (prepareChannelHandshake (client src) (client dest)
                     (clientID dest) srcPort channelIdSrc))
        (fun proofConfirm =>
      bind (await (channelOpenConfirm (client dest) destPort channelIdDest
                     proofConfirm))
        (fun _ =>
      Ret (mkChannelPair (mkChannelInfo srcPort channelIdSrc)
             (mkChannelInfo destPort channelIdDest)))))))))
  end.

(** Modelled from the spec: two chains that accept every step of the
    handshake; the n-th channel a chain opens is [channel-n], for n up to
    9.  The state counts the channels of the two chains. *)
Definition World : Type := (nat * nat)%type.

Definition minted (n : nat) : string :=
  ("channel-" ++ String (ascii_of_nat (48 + n)) EmptyString)%string.

Definition mint (node : IbcClient) (w : World) : Result string * World :=
  match node with
  | Chain1 => (OK (minted (fst w)), (S (fst w), snd w))
  | Chain2 => (OK (minted (snd w)), (fst w, S (snd w)))
  end.

Definition handler (X : Type) (c : Call X) (w : World) : Result X * World :=
  match c in Call X return Result X * World with
  | channelOpenInit node _ _ _ _ _ => mint node w
  | prepareChannelHandshake _ _ _ _ _ =>
      (OK (mkChannelHandshakeProof (mkHeight 0 0) []), w)
  | channelOpenTry node _ _ _ _ _ _ _ => mint node w
  | channelOpenAck _ _ _ _ _ _ => (OK tt, w)
  | channelOpenConfirm _ _ _ _ => (OK tt, w)
  end.
End Channel.

(** ** The metrics server *)

Module Prometheus.
Definition prefix : string := "relayer".

Definition withPrefix (name : string) : string :=
  (prefix ++ "_" ++ name)%string.

Inductive MetricKind : Type := Counter | Gauge.

Record Metric : Type := mkMetric {
  kind : MetricKind;
  name : string;
  help : string
}.

Record Metrics : Type := mkMetrics {
  loopTotal : Metric;
  pendingPacketsSrc : Metric;
  pendingPacketsDest : Metric;
  errTxsTotal : Metric;
  balancesSrc : Metric;
  balancesDest : Metric
}.

Definition getMetrics : Metrics :=
  {| loopTotal :=
       mkMetric Counter (withPrefix "loop_total") "Total relayer loops.";
     pendingPacketsSrc :=
       mkMetric Gauge (withPrefix "pending_packets_src")
         "Total pending packages on source chain.";
     pendingPacketsDest :=
       mkMetric Gauge (withPrefix "pending_packets_dest")
         "Total pending packages on destination chain.";
     errTxsTotal :=
       mkMetric Counter (withPrefix "err_txs_total")
         "Total error on sending transaction.";
     balancesSrc :=
       mkMetric Gauge (withPrefix "balances_src") "Balances on source chain.";
     balancesDest :=
       mkMetric Gauge (withPrefix "balances_dest")
         "Balances on destination chain." |}.

(** The module variable [initialized], and what the process has been
    asked to do: the prefixes default metrics are collected under, and
    the ports a server listens on. *)
Record Process : Type := mkProcess {
  initialized : bool;
  collected : list string;
  listening : list Z
}.

Definition fresh : Process :=
  {| initialized := false; collected := []; listening := [] |}.

(** What a call does: it throws, or returns the metrics or [null]. *)
Inductive Outcome : Type :=
| Thrown (msg : string)
| Returned (m : option Metrics).

(** A port that [server.listen] accepts: an integer from 0 to 65535. *)
Definition validPort (port : Z) : bool := (0 <=? port) && (port <=? 65535).

(** [setupPrometheus], for a port that is an integer; the logger is left
    out.  [server.listen(port)] throws at once, with the code
    ERR_SOCKET_BAD_PORT, for a port outside 0 to 65535; by then the flag is
    set and the default metrics are collected.  A port that is taken is
    reported later, as an event of the server, and not by this call. *)
Definition setupPrometheus (enabled : bool) (port : Z) (p : Process) :
  Outcome * Process :=
  if initialized p
  then (Thrown (quoted "setupPrometheus"
                  ++ " func shouldn't be initialized more than once.")%string,
        p)
  else
    let p1 := mkProcess true (collected p) (listening p) in
    if negb enabled
    then (Returned None, p1)
    else
      let p2 := mkProcess true (collected p1 ++ [(prefix ++ "_")%string])
                  (listening p1) in
      if validPort port
      then (Returned (Some getMetrics),
            mkProcess true (collected p2) (listening p2 ++ [port]))
      else (Thrown "ERR_SOCKET_BAD_PORT", p2).

(** Calls made one after the other. *)
Fixpoint setupAll (calls : list (bool * Z)) (p : Process) :
  list Outcome * Process :=
  match calls with
  | [] => ([], p)
  | (enabled, port) :: rest =>
      let '(out, p1) := setupPrometheus enabled port p in
      let '(outs, p2) := setupAll rest p1 in
      (out :: outs, p2)
  end.

Definition isThrown (o : Outcome) : bool :=
  match o with
  | Thrown _ => true
  | Returned _ => false
  end.
End Prometheus.

(** ** Chains that stop answering *)

(** Modelled from the spec: its ChainError, an RPC that is unreachable.
    The chains of [Sim] answer a number of calls, and reject every call
    after these. *)
Definition flaky (X : Type) (c : Call X) (w : nat * Sim.World) :
  Result X * (nat * Sim.World) :=
  match fst w with
  | O => (Err (CollaboratorError "unreachable"), w)
  | S n =>
      let '(r, w1) := Sim.handler X c (snd w) in
      (r, (n, w1))
  end.

(** The same for the chains of [Channel]. *)
Definition flakyChannel (X : Type) (c : Channel.Call X)
  (w : nat * Channel.World) : Result X * (nat * Channel.World) :=
  match fst w with
  | O => (Err (CollaboratorError "unreachable"), w)
  | S n =>
      let '(r, w1) := Channel.handler X c (snd w) in
      (r, (n, w1))
  end.

(** [mapResult f r]: the value of a fulfilled [r] through [f]. *)
Definition mapResult {X R : Type} (f : X -> R) (r : Result X) : Result R :=
  match r with
  | OK x => OK (f x)
  | Err e => Err e
  end.

(** Modelled from the spec: the chains of [Sim], whose consensus states
    carry no timestamp, with the timestamp of the stored consensus state
    given in seconds. *)
Definition stamped (known : Z) (X : Type) (c : Call X) (w : Sim.World) :
  Result X * Sim.World :=
  match c in Call X' return Call X' -> Result X' * Sim.World with
  | consensusStateTm node _ _ =>
      fun _ =>
        (OK {| timestamp := Some (mkTimestamp (Some known));
               root := Sim.storedRoot (Sim.chainOf node w);
               nextValidatorsHash :=
                 Sim.storedValidatorsHash (Sim.chainOf node w) |}, w)
  | _ => fun c' => Sim.handler _ c' w
  end c.

(** Modelled from the spec: the chains of [Sim.quiet] after packets 1
    and 2 went from A to B: B has written an ack for each at height 6,
    and A has seen the ack of packet 2 only. *)
Definition ackOf (seq : Z) : AckWithMetadata :=
  mkAckWithMetadata 6 (mkAck [] (Sim.transfer seq)).

Definition unacked : Sim.World :=
  {| Sim.chain1 := Sim.withAcked [2] (Sim.chain1 Sim.quiet);
     Sim.chain2 :=
       Sim.withTip 6
         (Sim.withReceived [1; 2] [ackOf 1; ackOf 2] (Sim.chain2 Sim.quiet)) |}.

(** ** More vocabulary *)

(** The body that [getPendingPackets] and [getPendingAcks] share: the
    items the source reports by the call [sent], each with the packet
    [packetOf] it is about; the destination is asked by [unreceived] which
    sequences it has not seen, and the items it has not seen are kept. *)
Definition pendingItems {T : Type} (sent : Call (list T))
  (packetOf : T -> Packet) (idFunc : Packet -> string)
  (unreceived : string -> string -> list Z -> Call (list Z)) :
  Prog (list T) :=
  all <- await sent ;;
  let toFilter := map packetOf all in
  let query := fun port channel sequences =>
    res <- await (unreceived port channel sequences) ;;
    Ret res in
  unreceived_ <- filterUnreceived toFilter query idFunc ;;
  liftResult
    (filterThrowing
       (fun x => isUnreceived unreceived_ (idFunc (packetOf x))
                   (sequence (packetOf x)))
       all).

(** The query that [filterUnreceived] makes for one key and its
    sequences. *)
Definition askFor (unreceived : string -> string -> list Z -> Call (list Z))
  (entry : string * list Z) : Call (list Z) :=
  unreceived (nth 0 (split_at idDelim (fst entry)) EmptyString)
    (nth 1 (split_at idDelim (fst entry)) EmptyString) (snd entry).

(** Whether the destination reported the sequence of a packet, among the
    answers stored under the keys. *)
Definition reportedUnreceived (answers : Record_ (list Z)) (id : string)
  (seq : Z) : bool :=
  match lookup answers id with
  | Some notfound => has notfound seq
  | None => false
  end.


(** The link with its two ends exchanged. *)
Definition swapEnds (this : Link) : Link :=
  {| endA := endB this; endB := endA this |}.

(** A call that was answered, not rejected. *)
Definition stepOK (s : Step) : bool :=
  match s with
  | step _ (OK _) => true
  | step _ (Err _) => false
  end.

(** A data-plane transaction that the destination accepted. *)
Definition dataPlaneAccepted (s : Step) : bool :=
  match s with
  | step (receivePackets _ _ _ _) (OK _) => true
  | step (acknowledgePackets _ _ _ _) (OK _) => true
  | _ => false
  end.







(** The steps of calls [c x] with their answers. *)
Definition answered {T X : Type} (c : T -> Call X) (xs : list T)
  (rs : list (Result X)) : list Step :=
  map (fun xr => step (c (fst xr)) (snd xr)) (combine xs rs).

(** [s] without occurrence of the character [d]. *)
Fixpoint free_of (d : ascii) (s : string) : bool :=
  match s with
  | EmptyString => true
  | String c rest => negb (Ascii.eqb c d) && free_of d rest
  end.

(** [parts.join(d)] for a one character delimiter. *)
Fixpoint join (d : ascii) (parts : list string) : string :=
  match parts with
  | [] => EmptyString
  | [p] => p
  | p :: rest => (p ++ String d (join d rest))%string
  end.

(** ** Vocabulary of the properties *)

(** A program all of whose returned values satisfy [P]. *)
Inductive Returns {R : Type} (P : R -> Prop) : Prog R -> Prop :=
| Returns_Ret (r : R) : P r -> Returns P (Ret r)
| Returns_Throw (e : Error) : Returns P (Throw e)
| Returns_Do {X : Type} (c : Call X) (k : Result X -> Prog R) :
    (forall r, Returns P (k r)) -> Returns P (Do c k).


(** A program that broadcasts no transaction. *)
Inductive QueryOnly {R : Type} : Prog R -> Prop :=
| QueryOnly_Ret (r : R) : QueryOnly (Ret r)
| QueryOnly_Throw (e : Error) : QueryOnly (Throw e)
| QueryOnly_Do {X : Type} (c : Call X) (k : Result X -> Prog R) :
    broadcasts c = false -> (forall r, QueryOnly (k r)) -> QueryOnly (Do c k).

(** A field of the returned cursor is not below the field of the given
    one; a field that is absent is absent on both sides. *)
Definition notBelow (given returned : option Z) : Prop :=
  match given, returned with
  | None, None => True
  | Some a, Some b => a <= b
  | _, _ => False
  end.

(** A stored consensus state agrees with a header: the same next
    validators hash, and a root hash that is the app hash. *)
Definition headersMatch (cs : ConsensusState) (hd : Header) : Prop :=
  nextValidatorsHash cs = headerNextValidatorsHash hd
  /\ exists r, root cs = Some r /\ hash r = appHash hd.

(** ** Proof steps *)

(** In the run [H] of a program against [handler]: one more call answered,
    or one more test of the code decided. *)
Ltac advance handler H :=
  match type of H with
  | context [handler ?X ?c ?w] =>
      destruct (handler X c w) as [[? | ?] ?]; simpl in H
  | context [arrayContentEquals ?a ?b] =>
      destruct (arrayContentEquals a b) eqn:?; simpl in H
  | context [root ?cs] =>
      destruct (root cs) as [? |] eqn:?; simpl in H
  | context [counterparty ?c] =>
      destruct (counterparty c) as [? |] eqn:?; simpl in H
  | context [State_eqb ?a ?b] =>
      destruct (State_eqb a b) eqn:?; simpl in H
  | context [String.eqb ?a ?b] =>
      destruct (String.eqb_spec a b); simpl in H
  | context [match ?x with Some _ => _ | None => _ end] =>
      is_var x; destruct x; simpl in H
  end.

(** In the run [H] against [handler]: one more call answered. *)
Ltac answer handler H :=
  match type of H with
  | context [handler ?X ?c ?w] =>
      destruct (handler X c w) as [[? | ?] ?]; simpl in H
  end.

(** A trace that ends with the call that was rejected. *)
Ltac stopped :=
  match goal with
  | |- exists pre X c, ?l = _ /\ _ =>
      exists (removelast l); do 2 eexists; split; reflexivity
  end.


(** * Properties *)

(** ** Running programs *)

Section RunFacts.
Context {World : Type}.
Variable handler : forall X : Type, Call X -> World -> Result X * World.

Lemma run_bind {S R : Type} (p : Prog S) (f : S -> Prog R) (w : World) :
  run handler (bind p f) w =
  match run handler p w with
  | (t1, OK s, w1) =>
      let '(t2, out, w2) := run handler (f s) w1 in (t1 ++ t2, out, w2)
  | (t1, Err e, w1) => (t1, Err e, w1)
  end.
Proof.
  revert w; induction p as [s | e | X c k IH]; intro w; simpl.
  - destruct (run handler (f s) w) as [[t2 out] w2]; reflexivity.
  - reflexivity.
  - destruct (handler X c w) as [r w1].
    rewrite IH.
    destruct (run handler (k r) w1) as [[t1 [s | e]] w2]; simpl.
    + destruct (run handler (f s) w2) as [[t2 out] w3]; reflexivity.
    + reflexivity.
Qed.

Lemma run_settle {R : Type} (p : Prog R) (w : World) :
  run handler (settle p) w =
  let '(t, out, w1) := run handler p w in (t, OK out, w1).
Proof.
  revert w; induction p as [s | e | X c k IH]; intro w; simpl; try reflexivity.
  destruct (handler X c w) as [r w1].
  rewrite IH.
  destruct (run handler (k r) w1) as [[t out] w2]; reflexivity.
Qed.

Lemma run_await {X : Type} (c : Call X) (w : World) :
  run handler (await c) w =
  ([step c (fst (handler X c w))], fst (handler X c w), snd (handler X c w)).
Proof.
  unfold await; simpl.
  destruct (handler X c w) as [[x | e] w1]; reflexivity.
Qed.
End RunFacts.

Lemma Returns_bind {S R : Type} (P : R -> Prop) (p : Prog S)
  (f : S -> Prog R) :
  (forall s, Returns P (f s)) -> Returns P (bind p f).
Proof.
  intro Hf; induction p as [s | e | X c k IH]; simpl.
  - apply Hf.
  - constructor.
  - constructor; intro r; apply IH.
Qed.

Lemma Returns_outcome {World R : Type}
  (handler : forall X : Type, Call X -> World -> Result X * World)
  (P : R -> Prop) (p : Prog R) :
  Returns P p -> forall w r, outcome handler p w = OK r -> P r.
Proof.
  unfold outcome.
  induction 1 as [r0 Hr | e | X c k _ IH]; intros w r; simpl.
  - intro E; injection E as <-; exact Hr.
  - discriminate.
  - destruct (handler X c w) as [a w1].
    specialize (IH a w1 r).
    destruct (run handler (k a) w1) as [[t out] w2]; simpl in *; exact IH.
Qed.

Lemma QueryOnly_bind {S R : Type} (p : Prog S) (f : S -> Prog R) :
  QueryOnly p -> (forall s, QueryOnly (f s)) -> QueryOnly (bind p f).
Proof.
  intros Hp Hf; induction Hp as [s | e | X c k Hc _ IH]; simpl.
  - apply Hf.
  - constructor.
  - constructor; [exact Hc | exact IH].
Qed.

Lemma QueryOnly_settle {R : Type} (p : Prog R) :
  QueryOnly p -> QueryOnly (settle p).
Proof.
  induction 1 as [s | e | X c k Hc _ IH]; simpl; constructor; auto.
Qed.

Lemma QueryOnly_await {X : Type} (c : Call X) :
  broadcasts c = false -> QueryOnly (await c).
Proof.
  intro Hc; constructor; [exact Hc |].
  intros [x | e]; constructor.
Qed.

Lemma QueryOnly_Promise_all2 {R1 R2 : Type} (p1 : Prog R1) (p2 : Prog R2) :
  QueryOnly p1 -> QueryOnly p2 -> QueryOnly (Promise_all2 p1 p2).
Proof.
  intros H1 H2; unfold Promise_all2.
  apply QueryOnly_bind; [apply QueryOnly_settle, H1 |]; intro r1.
  apply QueryOnly_bind; [apply QueryOnly_settle, H2 |]; intro r2.
  destruct r1, r2; constructor.
Qed.

Lemma QueryOnly_Promise_all4 {R1 R2 R3 R4 : Type}
  (p1 : Prog R1) (p2 : Prog R2) (p3 : Prog R3) (p4 : Prog R4) :
  QueryOnly p1 -> QueryOnly p2 -> QueryOnly p3 -> QueryOnly p4 ->
  QueryOnly (Promise_all4 p1 p2 p3 p4).
Proof.
  intros H1 H2 H3 H4; unfold Promise_all4.
  apply QueryOnly_bind; [apply QueryOnly_settle, H1 |]; intro r1.
  apply QueryOnly_bind; [apply QueryOnly_settle, H2 |]; intro r2.
  apply QueryOnly_bind; [apply QueryOnly_settle, H3 |]; intro r3.
  apply QueryOnly_bind; [apply QueryOnly_settle, H4 |]; intro r4.
  destruct r1, r2, r3, r4; constructor.
Qed.

Lemma QueryOnly_trace {World R : Type}
  (handler : forall X : Type, Call X -> World -> Result X * World)
  (p : Prog R) :
  QueryOnly p -> forall w, transactions (trace handler p w) = [].
Proof.
  unfold trace, transactions.
  induction 1 as [s | e | X c k Hc _ IH]; intro w; simpl; try reflexivity.
  destruct (handler X c w) as [a w1].
  specialize (IH a w1).
  destruct (run handler (k a) w1) as [[t out] w2]; simpl in *.
  rewrite Hc; exact IH.
Qed.

(** ** Side orientation *)

(** C10: [otherSide] is an involution, and the ends seen from the other
    side are the ends seen from this side with [src] and [dest]
    exchanged. *)
Theorem side_orientation_involution :
  forall (this : Link) (s : Side),
    otherSide (otherSide s) = s
    /\ src (getEnds this (otherSide s)) = dest (getEnds this s)
    /\ dest (getEnds this (otherSide s)) = src (getEnds this s).
Proof.
  intros this [|]; repeat split.
Qed.

(** ** The connections of the app file *)

(** C9, as the claim states it: with both connections set the call would
    return the pair and not fail.  The code tests the two strings for
    truthiness, so that an empty [srcConnection] next to a set
    [destConnection] throws. *)
Lemma resolveConnections_empty_string_counterexample :
  ~ ((exists e,
        Ics20.resolveConnections
          (Ics20.mkAppConfig (Some EmptyString) (Some "connection-0")) = Err e)
     <-> (Some EmptyString <> None /\ Some "connection-0" = @None string)
         \/ (Some EmptyString = @None string /\ Some "connection-0" <> None)).
Proof.
  intros [Hfails _].
  destruct Hfails as [[_ H] | [H _]]; [| discriminate H | discriminate H].
  exists DestWithoutSrcConnection; reflexivity.
Qed.

(** C9, amended: a connection counts as given when it is a non-empty
    string.  [resolveConnections] fails, with a ConfigError, exactly when
    one of the two connections is given and the other is not; when both
    are given it returns that pair; when neither is given it returns
    [null]. *)
Theorem resolveConnections_spec :
  forall app : Ics20.AppConfig,
    ((exists e, Ics20.resolveConnections app = Err e)
     <-> truthy (Ics20.srcConnection app)
         <> truthy (Ics20.destConnection app))
    /\ (forall e, Ics20.resolveConnections app = Err e ->
         errorKind e = ConfigError)
    /\ (forall s d,
           Ics20.srcConnection app = Some s ->
           Ics20.destConnection app = Some d ->
           s <> EmptyString -> d <> EmptyString ->
           Ics20.resolveConnections app
           = OK (Some {| Ics20.src := s; Ics20.dest := d |}))
    /\ (truthy (Ics20.srcConnection app) = false ->
        truthy (Ics20.destConnection app) = false ->
        Ics20.resolveConnections app = OK None).
Proof.
  intros [[s |] [d |]]; unfold Ics20.resolveConnections; simpl;
    try destruct (String.eqb_spec s EmptyString) as [Es | Es];
    try destruct (String.eqb_spec d EmptyString) as [Ed | Ed];
    simpl; repeat split;
    try (intros [e He]; discriminate He);
    try (intros e He; injection He as <-; reflexivity);
    try (intros e He; discriminate He);
    try (intros _; eexists; reflexivity);
    try (intros Hne; exfalso; apply Hne; reflexivity);
    try discriminate;
    try (intros s0 d0 Hs Hd Hs0 Hd0;
         try discriminate Hs; try discriminate Hd;
         injection Hs as <-; injection Hd as <-;
         solve [reflexivity | contradiction]);
    try reflexivity.
Qed.

Lemma resolveConnections_spec_witness :
  Ics20.resolveConnections
    (Ics20.mkAppConfig (Some "connection-0") (Some "connection-1"))
  = OK (Some {| Ics20.src := "connection-0"; Ics20.dest := "connection-1" |})
  /\ Ics20.resolveConnections (Ics20.mkAppConfig None (Some EmptyString))
     = OK None
  /\ errorKind SrcWithoutDestConnection = ConfigError.
Proof.
  split; [| split].
  - apply (proj1 (proj2 (proj2 (resolveConnections_spec
             (Ics20.mkAppConfig (Some "connection-0")
                (Some "connection-1")))))
             "connection-0" "connection-1");
      [reflexivity | reflexivity | discriminate | discriminate].
  - apply (proj2 (proj2 (proj2 (resolveConnections_spec
             (Ics20.mkAppConfig None (Some EmptyString))))));
      reflexivity.
  - apply (proj1 (proj2 (resolveConnections_spec
             (Ics20.mkAppConfig (Some "connection-0") None)))).
    reflexivity.
Defined.

(** ** The height the destination must know *)

Lemma Math_max_from (xs : list Z) (a : Z) :
  fold_left
    (fun acc x => match acc with
                  | NegInfinity => Num x
                  | Num b => Num (Z.max b x)
                  end)
    xs (Num a)
  = Num (fold_left Z.max xs a).
Proof.
  revert a; induction xs as [| x xs IH]; intro a; simpl.
  - reflexivity.
  - apply IH.
Qed.

Lemma fold_max_bounds (xs : list Z) (a : Z) :
  a <= fold_left Z.max xs a
  /\ (forall x, In x xs -> x <= fold_left Z.max xs a)
  /\ (fold_left Z.max xs a = a \/ In (fold_left Z.max xs a) xs).
Proof.
  revert a; induction xs as [| x xs IH]; intro a; simpl.
  - repeat split; [lia | contradiction | left; reflexivity].
  - destruct (IH (Z.max a x)) as (Hlow & Hall & Hin).
    repeat split.
    + lia.
    + intros y [<- | Hy]; [lia | apply Hall, Hy].
    + destruct Hin as [E | Hin]; [| right; right; exact Hin].
      rewrite E.
      destruct (Z.max_spec a x) as [[_ ->] | [_ ->]]; auto.
Qed.

(** The maximum of a list that is not empty is one of its elements and
    bounds them all. *)
Lemma Math_max_nonempty (xs : list Z) :
  xs <> [] ->
  exists m, Math_max xs = Num m /\ In m xs /\ forall x, In x xs -> x <= m.
Proof.
  destruct xs as [| a xs]; [intro H; contradiction H; reflexivity |].
  intros _; unfold Math_max; simpl.
  rewrite Math_max_from.
  destruct (fold_max_bounds xs a) as (Hlow & Hall & Hin).
  exists (fold_left Z.max xs a); repeat split.
  - destruct Hin as [-> | Hin]; [left; reflexivity | right; exact Hin].
  - intros x [<- | Hx]; [exact Hlow | apply Hall, Hx].
Qed.

Lemma toDouble_safe (z : Z) : Z.abs z <= 2 ^ 53 -> toDouble z = z.
Proof.
  intro H; unfold toDouble.
  destruct (Z.leb_spec (Z.abs z) (2 ^ 53)) as [_ | Hgt]; [reflexivity | lia].
Qed.

Lemma neededHeight_safe (heights : list Z) (m : Z) :
  Math_max heights = Num m -> Z.abs m <= MAX_SAFE_INTEGER ->
  neededHeight heights = Num (m + 1).
Proof.
  intros Hmax Hsafe; unfold neededHeight; rewrite Hmax; simpl.
  rewrite toDouble_safe; [reflexivity |].
  unfold MAX_SAFE_INTEGER in Hsafe.
  change (2 ^ 53) with 9007199254740992; lia.
Qed.

(** C4, as the claim states it, at a packet committed at height 2^53:
    the sum of the height and 1 is rounded to 2^53, so the height passed
    on is not the maximum plus one, and is not above the commit height of
    the packet. *)
Lemma neededHeight_rounds_counterexample :
  neededHeight
    (map packetHeight
       [mkPacketWithMetadata (Sim.transfer 1) 9007199254740992])
  = Num 9007199254740992
  /\ neededHeight
       (map packetHeight
          [mkPacketWithMetadata (Sim.transfer 1) 9007199254740992])
     <> Num (9007199254740992 + 1)
  /\ ~ (forall n,
          neededHeight
            (map packetHeight
               [mkPacketWithMetadata (Sim.transfer 1) 9007199254740992])
          = Num n ->
          forall p,
            In p [mkPacketWithMetadata (Sim.transfer 1) 9007199254740992] ->
            packetHeight p < n).
Proof.
  split; [reflexivity | split].
  - discriminate.
  - intro H.
    specialize (H 9007199254740992 eq_refl _ (or_introl eq_refl)).
    simpl in H; lia.
Qed.

(** C4, amended: for packets, respectively acks, that are not none and
    whose commit heights are safe integers (at most 2^53 - 1 in absolute
    value), the height that [relayPackets], respectively [relayAcks],
    passes to [updateClientToHeight] is the greatest commit height of its
    inputs plus one, and so exceeds the commit height of every input. *)
Theorem neededHeight_is_max_plus_one :
  forall (parseAcksFromLogs : list Log -> list Ack) (this : Link)
         (source : Side),
    (forall packets : list PacketWithMetadata,
        packets <> [] ->
        (forall p, In p packets ->
                   Z.abs (packetHeight p) <= MAX_SAFE_INTEGER) ->
        exists m,
          (exists p, In p packets /\ packetHeight p = m)
          /\ (forall p, In p packets -> packetHeight p <= m)
          /\ (forall p, In p packets -> packetHeight p < m + 1)
          /\ neededHeight (map packetHeight packets) = Num (m + 1)
          /\ exists k,
              relayPackets parseAcksFromLogs this source packets
              = bind (updateClientToHeight this source (Num (m + 1))) k)
    /\ (forall acks : list AckWithMetadata,
          acks <> [] ->
          (forall a, In a acks -> Z.abs (ackHeight a) <= MAX_SAFE_INTEGER) ->
          exists m,
            (exists a, In a acks /\ ackHeight a = m)
            /\ (forall a, In a acks -> ackHeight a <= m)
            /\ (forall a, In a acks -> ackHeight a < m + 1)
            /\ neededHeight (map ackHeight acks) = Num (m + 1)
            /\ exists k,
                relayAcks this source acks
                = bind (updateClientToHeight this source (Num (m + 1))) k).
Proof.
  intros parse this source; split.
  - intros packets Hne Hsafe.
    destruct (Math_max_nonempty (map packetHeight packets))
      as (m & Hmax & Hin & Hall).
    { destruct packets; [contradiction Hne; reflexivity | discriminate]. }
    assert (Hle : forall p, In p packets -> packetHeight p <= m)
      by (intros p Hp; apply Hall, in_map, Hp).
    apply in_map_iff in Hin; destruct Hin as (p0 & Hp0 & Hp0in).
    assert (Hm : Z.abs m <= MAX_SAFE_INTEGER)
      by (rewrite <- Hp0; apply Hsafe, Hp0in).
    pose proof (neededHeight_safe _ m Hmax Hm) as Hneeded.
    exists m; repeat split.
    + exists p0; split; assumption.
    + exact Hle.
    + intros p Hp; specialize (Hle p Hp); lia.
    + exact Hneeded.
    + unfold relayPackets; rewrite Hneeded.
      eexists; reflexivity.
  - intros acks Hne Hsafe.
    destruct (Math_max_nonempty (map ackHeight acks))
      as (m & Hmax & Hin & Hall).
    { destruct acks; [contradiction Hne; reflexivity | discriminate]. }
    assert (Hle : forall a, In a acks -> ackHeight a <= m)
      by (intros a Ha; apply Hall, in_map, Ha).
    apply in_map_iff in Hin; destruct Hin as (a0 & Ha0 & Ha0in).
    assert (Hm : Z.abs m <= MAX_SAFE_INTEGER)
      by (rewrite <- Ha0; apply Hsafe, Ha0in).
    pose proof (neededHeight_safe _ m Hmax Hm) as Hneeded.
    exists m; repeat split.
    + exists a0; split; assumption.
    + exact Hle.
    + intros a Ha; specialize (Hle a Ha); lia.
    + exact Hneeded.
    + unfold relayAcks; rewrite Hneeded.
      eexists; reflexivity.
Qed.

(** The packets of scenario 5: heights 100, 101 and 103 need height 104. *)
Lemma neededHeight_is_max_plus_one_witness :
  exists m,
    (exists p,
        In p [mkPacketWithMetadata (Sim.transfer 1) 100;
              mkPacketWithMetadata (Sim.transfer 2) 101;
              mkPacketWithMetadata (Sim.transfer 3) 103]
        /\ packetHeight p = m)
    /\ neededHeight [100; 101; 103] = Num (m + 1)
    /\ m + 1 = 104.
Proof.
  destruct (proj1 (neededHeight_is_max_plus_one Sim.parseAcksFromLogs
                     Sim.link A)
              [mkPacketWithMetadata (Sim.transfer 1) 100;
               mkPacketWithMetadata (Sim.transfer 2) 101;
               mkPacketWithMetadata (Sim.transfer 3) 103])
    as (m & Hin & _ & _ & Hneeded & _).
  - discriminate.
  - intros p [<- | [<- | [<- | []]]]; unfold MAX_SAFE_INTEGER; simpl; lia.
  - exists m; repeat split.
    + exact Hin.
    + exact Hneeded.
    + assert (E : neededHeight [100; 101; 103] = Num 104) by reflexivity.
      simpl in Hneeded; rewrite E in Hneeded.
      injection Hneeded as E'; lia.
Defined.

(** ** The relay iteration *)

Lemma checkAndRelay_Returns (parseAcksFromLogs : list Log -> list Ack)
  (this : Link) (relayFrom : RelayedHeights) :
  Returns (eq relayFrom)
    (checkAndRelayPacketsAndAcks parseAcksFromLogs this relayFrom).
Proof.
  unfold checkAndRelayPacketsAndAcks.
  apply Returns_bind; intros [packetsA packetsB].
  apply Returns_bind; intros _.
  apply Returns_bind; intros [acksA acksB].
  apply Returns_bind; intros _.
  constructor; reflexivity.
Qed.

(** What an iteration returns is the cursor it was given. *)
Lemma checkAndRelay_returns_input {World : Type}
  (handler : forall X : Type, Call X -> World -> Result X * World)
  (parseAcksFromLogs : list Log -> list Ack)
  (this : Link) (relayFrom out : RelayedHeights) (w : World) :
  outcome handler (checkAndRelayPacketsAndAcks parseAcksFromLogs this relayFrom)
    w = OK out ->
  out = relayFrom.
Proof.
  intro H; symmetry.
  exact (Returns_outcome handler _ _
           (checkAndRelay_Returns parseAcksFromLogs this relayFrom) w out H).
Qed.

(** C1, at a failing input: chain A has sent a packet at height 100 and the
    cursor is empty.  The iteration relays the packet to chain B and
    succeeds, and the cursor it returns has no packet height for A, where
    the claim has 100. *)
Theorem checkAndRelay_cursor_not_advanced :
  In (step (receivePackets Chain2 [Sim.transfer 1] [[]] (mkHeight 0 101))
        (OK (mkMsgResult [] 6)))
    (trace Sim.handler
       (checkAndRelayPacketsAndAcks Sim.parseAcksFromLogs Sim.link
          (mkRelayedHeights None None None None))
       Sim.onePacket)
  /\ Sim.sent (Sim.chain1 Sim.onePacket)
     = [mkPacketWithMetadata (Sim.transfer 1) 100]
  /\ exists out,
      outcome Sim.handler
        (checkAndRelayPacketsAndAcks Sim.parseAcksFromLogs Sim.link
           (mkRelayedHeights None None None None))
        Sim.onePacket = OK out
      /\ packetHeighA out = None
      /\ packetHeighA out <> Some 100.
Proof.
  split; [| split].
  - vm_compute.
    repeat (first [left; reflexivity | right]).
  - reflexivity.
  - eexists; split; [vm_compute; reflexivity |].
    split; [reflexivity | discriminate].
Qed.

Lemma notBelow_refl (h : option Z) : notBelow h h.
Proof.
  destruct h; simpl; [lia | exact I].
Qed.

(** C8: every field of the cursor that a successful iteration returns is
    greater than or equal to the field of the cursor it was given. *)
Theorem cursor_monotone :
  forall (World : Type)
         (handler : forall X : Type, Call X -> World -> Result X * World)
         (parseAcksFromLogs : list Log -> list Ack)
         (this : Link) (relayFrom out : RelayedHeights) (w : World),
    outcome handler
      (checkAndRelayPacketsAndAcks parseAcksFromLogs this relayFrom) w
    = OK out ->
    notBelow (packetHeighA relayFrom) (packetHeighA out)
    /\ notBelow (packetHeightB relayFrom) (packetHeightB out)
    /\ notBelow (ackHeightA relayFrom) (ackHeightA out)
    /\ notBelow (ackHeightB relayFrom) (ackHeightB out).
Proof.
  intros World handler parse this relayFrom out w H.
  apply checkAndRelay_returns_input in H; subst out.
  repeat split; apply notBelow_refl.
Qed.

Lemma cursor_monotone_witness :
  exists out,
    outcome Sim.handler
      (checkAndRelayPacketsAndAcks Sim.parseAcksFromLogs Sim.link
         (mkRelayedHeights (Some 7) None (Some 2) None))
      Sim.onePacket = OK out
    /\ notBelow (Some 7) (packetHeighA out)
    /\ notBelow None (packetHeightB out)
    /\ notBelow (Some 2) (ackHeightA out)
    /\ notBelow None (ackHeightB out).
Proof.
  eexists; split.
  - vm_compute; reflexivity.
  - apply (cursor_monotone Sim.World Sim.handler Sim.parseAcksFromLogs Sim.link
             (mkRelayedHeights (Some 7) None (Some 2) None) _ Sim.onePacket).
    vm_compute; reflexivity.
Defined.

(** ** Updating the client of the destination *)

Section UpdateClientToHeight.
Context {World : Type}.
Variable handler : forall X : Type, Call X -> World -> Result X * World.
Variables (this : Link) (source : Side) (minHeight : number).

Local Abbreviation srcEnd := (src (getEnds this source)).
Local Abbreviation destEnd := (dest (getEnds this source)).

(** When the destination knows the source at [minHeight] or above, the
    known height is returned and the client query is the only call. *)
Lemma updateClientToHeight_known (w w1 : World) (cs : ClientState)
  (known : Height) :
  handler _ (stateTm (client destEnd) (clientID destEnd)) w = (OK cs, w1) ->
  latestHeight cs = Some known ->
  geb_number (revisionHeight known) minHeight = true ->
  run handler (updateClientToHeight this source minHeight) w
  = ([step (stateTm (client destEnd) (clientID destEnd)) (OK cs)],
     OK known, w1).
Proof.
  intros Hq Hl Hge.
  unfold updateClientToHeight; simpl.
  rewrite Hq; simpl.
  rewrite Hl, Hge; reflexivity.
Qed.

(** Otherwise, when the latest block of the source is below [minHeight],
    one block of the source is awaited and then the client is updated;
    the height returned is the one the update reports. *)
Lemma updateClientToHeight_waits (w w1 w2 w3 w4 : World) (cs : ClientState)
  (hd : Header) (r : Result Height) :
  handler _ (stateTm (client destEnd) (clientID destEnd)) w = (OK cs, w1) ->
  geb_number (toIntHeight (latestHeight cs)) minHeight = false
  \/ latestHeight cs = None ->
  handler _ (latestHeader (client srcEnd)) w1 = (OK hd, w2) ->
  ltb_number (height hd) minHeight = true ->
  handler _ (waitOneBlock (client srcEnd)) w2 = (OK tt, w3) ->
  handler _ (doUpdateClient (client destEnd) (clientID destEnd)
               (client srcEnd)) w3 = (r, w4) ->
  run handler (updateClientToHeight this source minHeight) w
  = ([step (stateTm (client destEnd) (clientID destEnd)) (OK cs);
      step (latestHeader (client srcEnd)) (OK hd);
      step (waitOneBlock (client srcEnd)) (OK tt);
      step (doUpdateClient (client destEnd) (clientID destEnd)
              (client srcEnd)) r],
     r, w4).
Proof.
  intros Hq Hstale Hh Hlt Hw Hu.
  unfold updateClientToHeight, updateClient; simpl.
  rewrite Hq; simpl.
  assert (E : match
                geb_number
                  match latestHeight cs with
                  | Some h => revisionHeight h
                  | None => 0
                  end minHeight, latestHeight cs
              with
              | true, Some known => true
              | _, _ => false
              end = false).
  { unfold toIntHeight in Hstale.
    destruct Hstale as [-> | ->]; [reflexivity |].
    destruct (geb_number 0 minHeight); reflexivity. }
  destruct (geb_number _ minHeight) eqn:Eg, (latestHeight cs) eqn:El;
    try discriminate E; simpl; rewrite Hh; simpl; rewrite Hlt; simpl;
    rewrite Hw; simpl; rewrite Hu; destruct r; reflexivity.
Qed.

(** And when the latest block of the source is at [minHeight] or above,
    the client is updated at once. *)
Lemma updateClientToHeight_updates (w w1 w2 w3 : World) (cs : ClientState)
  (hd : Header) (r : Result Height) :
  handler _ (stateTm (client destEnd) (clientID destEnd)) w = (OK cs, w1) ->
  geb_number (toIntHeight (latestHeight cs)) minHeight = false
  \/ latestHeight cs = None ->
  handler _ (latestHeader (client srcEnd)) w1 = (OK hd, w2) ->
  ltb_number (height hd) minHeight = false ->
  handler _ (doUpdateClient (client destEnd) (clientID destEnd)
               (client srcEnd)) w2 = (r, w3) ->
  run handler (updateClientToHeight this source minHeight) w
  = ([step (stateTm (client destEnd) (clientID destEnd)) (OK cs);
      step (latestHeader (client srcEnd)) (OK hd);
      step (doUpdateClient (client destEnd) (clientID destEnd)
              (client srcEnd)) r],
     r, w3).
Proof.
  intros Hq Hstale Hh Hlt Hu.
  unfold updateClientToHeight, updateClient; simpl.
  rewrite Hq; simpl.
  assert (E : match
                geb_number
                  match latestHeight cs with
                  | Some h => revisionHeight h
                  | None => 0
                  end minHeight, latestHeight cs
              with
              | true, Some known => true
              | _, _ => false
              end = false).
  { unfold toIntHeight in Hstale.
    destruct Hstale as [-> | ->]; [reflexivity |].
    destruct (geb_number 0 minHeight); reflexivity. }
  destruct (geb_number _ minHeight) eqn:Eg, (latestHeight cs) eqn:El;
    try discriminate E; simpl; rewrite Hh; simpl; rewrite Hlt; simpl;
    rewrite Hu; destruct r; reflexivity.
Qed.
End UpdateClientToHeight.

(** C3, at a failing input: the destination knows the source at height 5,
    the source is at block 5, and height 1000 is asked for.  One block of
    the source is awaited, the client is updated to the latest height of
    the source, 6, and 6 is returned: the destination does not know the
    source at 1000 or above. *)
Theorem updateClientToHeight_below_minHeight :
  run Sim.handler (updateClientToHeight Sim.link A (Num 1000)) Sim.quiet
  = ([step (stateTm Chain2 "07-tendermint-0")
        (OK (mkClientState "network-1" (Some (mkHeight 0 5))));
      step (latestHeader Chain1) (OK (mkHeader 5 5 [x0a] [x0b]));
      step (waitOneBlock Chain1) (OK tt);
      step (doUpdateClient Chain2 "07-tendermint-0" Chain1)
        (OK (mkHeight 0 6))],
     OK (mkHeight 0 6),
     Sim.setChain Chain2
       (Sim.withClient (Some 6) (Some (mkMerkleRoot [x0a])) [x0b]
          (Sim.chain2 Sim.quiet))
       (Sim.setChain Chain1 (Sim.withTip 6 (Sim.chain1 Sim.quiet)) Sim.quiet))
  /\ geb_number (revisionHeight (mkHeight 0 6)) (Num 1000) = false.
Proof.
  split; reflexivity.
Qed.

(** ** Relaying nothing *)

(** C2, on the code: with no packet to relay the height asked of
    [updateClientToHeight] is [-Infinity], and once that call has returned
    a height, [receivePackets] is called on the destination with no
    packet and no proof: a transaction is broadcast. *)
Theorem relayPackets_empty_broadcasts :
  forall (World : Type)
         (handler : forall X : Type, Call X -> World -> Result X * World)
         (parseAcksFromLogs : list Log -> list Ack)
         (this : Link) (source : Side) (w w1 : World) (t : list Step)
         (headerHeight : Height),
    run handler (updateClientToHeight this source NegInfinity) w
    = (t, OK headerHeight, w1) ->
    let receive :=
      receivePackets (client (dest (getEnds this source))) [] [] headerHeight in
    neededHeight (map packetHeight []) = NegInfinity
    /\ trace handler (relayPackets parseAcksFromLogs this source []) w
       = t ++ [step receive (fst (handler _ receive w1))]
    /\ transactions
         (trace handler (relayPackets parseAcksFromLogs this source []) w)
       <> [].
Proof.
  intros World handler parse this source w w1 t headerHeight Hupdate receive.
  assert (Htrace :
    trace handler (relayPackets parse this source []) w
    = t ++ [step receive (fst (handler _ receive w1))]).
  { unfold trace, relayPackets.
    change (neededHeight (map packetHeight [])) with NegInfinity.
    rewrite run_bind, Hupdate; simpl.
    fold receive.
    destruct (handler _ receive w1) as [[res | e] w2]; reflexivity. }
  split; [reflexivity | split; [exact Htrace |]].
  rewrite Htrace; unfold transactions.
  rewrite filter_app; simpl.
  intro H; apply app_eq_nil in H; destruct H as [_ H]; discriminate H.
Qed.

(** With nothing pending between two connected chains, relaying no packet
    from A broadcasts one transaction on B. *)
Lemma relayPackets_empty_broadcasts_witness :
  transactions
    (trace Sim.handler (relayPackets Sim.parseAcksFromLogs Sim.link A [])
       Sim.quiet)
  = [step (receivePackets Chain2 [] [] (mkHeight 0 5))
       (OK (mkMsgResult [] 6))]
  /\ transactions
       (trace Sim.handler (relayPackets Sim.parseAcksFromLogs Sim.link A [])
          Sim.quiet)
     <> [].
Proof.
  split; [reflexivity |].
  apply (relayPackets_empty_broadcasts Sim.World Sim.handler
           Sim.parseAcksFromLogs Sim.link A Sim.quiet Sim.quiet
           [step (stateTm Chain2 "07-tendermint-0")
              (OK (mkClientState "network-1" (Some (mkHeight 0 5))))]
           (mkHeight 0 5)).
  reflexivity.
Defined.

(** ** Construction *)

Lemma arrayContentEquals_eq (a b : bytes) :
  arrayContentEquals a b = true <-> a = b.
Proof.
  revert b; induction a as [| x a IH]; intros [| y b]; simpl;
    try (split; [discriminate | discriminate]); [tauto |].
  rewrite andb_true_iff, IH.
  destruct (Byte.eqb x y) eqn:E.
  - apply Byte.byte_dec_bl in E; subst y.
    split; [intros [_ ->]; reflexivity | intro H; injection H as ->; auto].
  - split; [intros [H _]; discriminate H |].
    intro H; injection H as -> _.
    assert (Byte.eqb y y = true) by (apply Byte.byte_dec_lb; reflexivity).
    congruence.
Qed.

Lemma State_eqb_eq (a b : State) : State_eqb a b = true -> a = b.
Proof.
  destruct a, b; simpl; intro H; try reflexivity; discriminate H.
Qed.

Section Construction.
Context {World : Type}.
Variable handler : forall X : Type, Call X -> World -> Result X * World.

(** The calls of a construction from new connections that succeeds. *)
Lemma createWithNewConnections_run (nodeA nodeB : IbcClient) (w w' : World)
  (t : list Step) (link : Link) :
  run handler (createWithNewConnections nodeA nodeB) w = (t, OK link, w') ->
  exists args clientIdB args2 clientIdA connIdA proof connIdB proofAck
         proofConfirm,
    t = [step (buildCreateClientArgs nodeA 1814400 5000) (OK args);
         step (createTendermintClient nodeB (clientState args)
                 (consensusState args)) (OK clientIdB);
         step (buildCreateClientArgs nodeB 1814400 5000) (OK args2);
         step (createTendermintClient nodeA (clientState args2)
                 (consensusState args2)) (OK clientIdA);
         step (connOpenInit nodeA clientIdA clientIdB) (OK connIdA);
         step (prepareConnectionHandshake nodeA nodeB clientIdA clientIdB
                 connIdA) (OK proof);
         step (connOpenTry nodeB clientIdB proof) (OK connIdB);
         step (prepareConnectionHandshake nodeB nodeA clientIdB clientIdA
                 connIdB) (OK proofAck);
         step (connOpenAck nodeA connIdA proofAck) (OK tt);
         step (prepareConnectionHandshake nodeA nodeB clientIdA clientIdB
                 connIdA) (OK proofConfirm);
         step (connOpenConfirm nodeB proofConfirm) (OK tt)]
    /\ link = mkLink (mkEndpoint nodeA clientIdA connIdA)
                (mkEndpoint nodeB clientIdB connIdB).
Proof.
  intro H.
  unfold createWithNewConnections, createClients in H; simpl in H.
  do 11 (advance handler H; [| discriminate H]).
  injection H as <- <- <-.
  repeat match goal with u : unit |- _ => destruct u end.
  do 9 eexists; split; reflexivity.
Qed.

(** The calls of a construction from existing connections that succeeds,
    and what their answers passed. *)
Lemma createWithExistingConnections_run (nodeA nodeB : IbcClient)
  (connA connB : string) (w w' : World) (t : list Step) (link : Link) :
  run handler (createWithExistingConnections nodeA nodeB connA connB) w
  = (t, OK link, w') ->
  exists connectionA connectionB counterpartyA counterpartyB chainIdA chainIdB
         clientStateA clientStateB consensusA headerB consensusB headerA,
    t = [step (connection nodeA connA) (OK (Some connectionA));
         step (connection nodeB connB) (OK (Some connectionB));
         step (getChainId nodeA) (OK chainIdA);
         step (getChainId nodeB) (OK chainIdB);
         step (stateTm nodeA (clientId connectionA)) (OK clientStateA);
         step (stateTm nodeB (clientId connectionB)) (OK clientStateB);
         step (consensusStateTm nodeA (clientId connectionA)
                 (latestHeight clientStateA)) (OK consensusA);
         step (header nodeB (toIntHeight (latestHeight clientStateA)))
           (OK headerB);
         step (consensusStateTm nodeB (clientId connectionB)
                 (latestHeight clientStateB)) (OK consensusB);
         step (header nodeA (toIntHeight (latestHeight clientStateB)))
           (OK headerA)]
    /\ link = mkLink (mkEndpoint nodeA (clientId connectionA) connA)
                (mkEndpoint nodeB (clientId connectionB) connB)
    /\ counterparty connectionA = Some counterpartyA
    /\ counterparty connectionB = Some counterpartyB
    /\ state connectionA = STATE_OPEN
    /\ state connectionB = STATE_OPEN
    /\ clientId connectionA = counterpartyClientId counterpartyB
    /\ clientId connectionB = counterpartyClientId counterpartyA
    /\ chainIdA = chainId clientStateB
    /\ chainIdB = chainId clientStateA
    /\ headersMatch consensusA headerB
    /\ headersMatch consensusB headerA.
Proof.
  intro H.
  unfold createWithExistingConnections in H; simpl in H.
  repeat advance handler H; try discriminate H.
  injection H as <- <- <-.
  repeat match goal with
         | E : State_eqb _ _ = true |- _ => apply State_eqb_eq in E
         | E : arrayContentEquals _ _ = true |- _ =>
             apply arrayContentEquals_eq in E
         end.
  do 12 eexists; split; [reflexivity |].
  unfold headersMatch; repeat split; eauto.
Qed.

(** A construction from existing connections that fails throws a
    ConsensusError of its own or what one of its calls threw. *)
Lemma createWithExistingConnections_fails (nodeA nodeB : IbcClient)
  (connA connB : string) (w w' : World) (t : list Step) (e : Error) :
  run handler (createWithExistingConnections nodeA nodeB connA connB) w
  = (t, Err e, w') ->
  errorKind e = ConsensusError
  \/ exists (X : Type) (c : Call X), In (step c (Err e)) t.
Proof.
  intro H.
  unfold createWithExistingConnections in H; simpl in H.
  repeat advance handler H; try discriminate H;
    injection H as <- <- <-;
    first [ left; reflexivity
          | right; do 2 eexists; simpl;
            repeat (first [left; reflexivity | right]) ].
Qed.

Lemma createWithExistingConnections_QueryOnly (nodeA nodeB : IbcClient)
  (connA connB : string) :
  QueryOnly (createWithExistingConnections nodeA nodeB connA connB).
Proof.
  assert (Hassert : forall this side cid h,
             QueryOnly (assertHeadersMatchConsensusState this side cid h)).
  { intros this side cid h; unfold assertHeadersMatchConsensusState.
    apply QueryOnly_bind.
    - apply QueryOnly_Promise_all2; apply QueryOnly_await; reflexivity.
    - intros [cs hd].
      destruct (negb _); [constructor |].
      destruct (option_map _ _); [| constructor].
      destruct (negb _); constructor. }
  unfold createWithExistingConnections.
  apply QueryOnly_bind.
  - apply QueryOnly_Promise_all2; apply QueryOnly_await; reflexivity.
  - intros [[connectionA |] [connectionB |]]; try constructor.
    destruct (counterparty connectionA), (counterparty connectionB);
      try constructor.
    repeat (destruct (negb _); [constructor |]).
    apply QueryOnly_bind.
    + apply QueryOnly_Promise_all4; apply QueryOnly_await; reflexivity.
    + intros [[[chainIdA chainIdB] clientStateA] clientStateB].
      repeat (destruct (negb _); [constructor |]).
      apply QueryOnly_bind; [| intros _; constructor].
      apply QueryOnly_Promise_all2; apply Hassert.
Qed.

(** What the comparison of one side decides, from the two answers it
    awaits. *)
Lemma assertHeadersMatchConsensusState_run (this : Link) (proofSide : Side)
  (cid : string) (h : option Height) (w w1 w2 : World)
  (cs : ConsensusState) (hd : Header) :
  handler _ (consensusStateTm (client (src (getEnds this proofSide))) cid h)
    w = (OK cs, w1) ->
  handler _ (header (client (dest (getEnds this proofSide)))
               (toIntHeight h)) w1 = (OK hd, w2) ->
  outcome handler (assertHeadersMatchConsensusState this proofSide cid h) w
  = if negb (arrayContentEquals (nextValidatorsHash cs)
               (headerNextValidatorsHash hd))
    then Err NextValidatorHashMismatch
    else match root cs with
         | None => Err RootHashMissing
         | Some r =>
             if negb (arrayContentEquals (hash r) (appHash hd))
             then Err AppHashMismatch
             else OK tt
         end.
Proof.
  intros Hcs Hhd.
  unfold outcome, assertHeadersMatchConsensusState; simpl.
  rewrite Hcs; simpl; rewrite Hhd; simpl.
  destruct (arrayContentEquals (nextValidatorsHash cs) _); simpl;
    [| reflexivity].
  destruct (root cs) as [r |]; simpl; [| reflexivity].
  destruct (arrayContentEquals (hash r) _); reflexivity.
Qed.
End Construction.

(** C5: a construction from new connections that succeeds has made these
    calls and no other: the client on B is created from the arguments
    built for A with an unbonding period of 1814400 s and a trusting
    period of 5000 s, then the client on A from the arguments built for B
    with the same periods; then the connection is opened by [connOpenInit]
    on A, [connOpenTry] on B, [connOpenAck] on A and [connOpenConfirm] on
    B, each of the last three with the proof prepared for it.  These six
    are its transactions, and the link holds the two client ids and the
    two connection ids that were minted. *)
Theorem createWithNewConnections_transactions :
  forall (World : Type)
         (handler : forall X : Type, Call X -> World -> Result X * World)
         (nodeA nodeB : IbcClient) (w : World) (link : Link),
    outcome handler (createWithNewConnections nodeA nodeB) w = OK link ->
    exists args clientIdB args2 clientIdA connIdA proof connIdB proofAck
           proofConfirm,
      trace handler (createWithNewConnections nodeA nodeB) w
      = [step (buildCreateClientArgs nodeA 1814400 5000) (OK args);
         step (createTendermintClient nodeB (clientState args)
                 (consensusState args)) (OK clientIdB);
         step (buildCreateClientArgs nodeB 1814400 5000) (OK args2);
         step (createTendermintClient nodeA (clientState args2)
                 (consensusState args2)) (OK clientIdA);
         step (connOpenInit nodeA clientIdA clientIdB) (OK connIdA);
         step (prepareConnectionHandshake nodeA nodeB clientIdA clientIdB
                 connIdA) (OK proof);
         step (connOpenTry nodeB clientIdB proof) (OK connIdB);
         step (prepareConnectionHandshake nodeB nodeA clientIdB clientIdA
                 connIdB) (OK proofAck);
         step (connOpenAck nodeA connIdA proofAck) (OK tt);
         step (prepareConnectionHandshake nodeA nodeB clientIdA clientIdB
                 connIdA) (OK proofConfirm);
         step (connOpenConfirm nodeB proofConfirm) (OK tt)]
      /\ transactions (trace handler (createWithNewConnections nodeA nodeB) w)
         = [step (createTendermintClient nodeB (clientState args)
                    (consensusState args)) (OK clientIdB);
            step (createTendermintClient nodeA (clientState args2)
                    (consensusState args2)) (OK clientIdA);
            step (connOpenInit nodeA clientIdA clientIdB) (OK connIdA);
            step (connOpenTry nodeB clientIdB proof) (OK connIdB);
            step (connOpenAck nodeA connIdA proofAck) (OK tt);
            step (connOpenConfirm nodeB proofConfirm) (OK tt)]
      /\ link = mkLink (mkEndpoint nodeA clientIdA connIdA)
                  (mkEndpoint nodeB clientIdB connIdB).
Proof.
  intros World handler nodeA nodeB w link H.
  unfold outcome, trace in *.
  destruct (run handler (createWithNewConnections nodeA nodeB) w)
    as [[t out] w'] eqn:Hrun.
  simpl in *; subst out.
  apply createWithNewConnections_run in Hrun.
  destruct Hrun as (args & clientIdB & args2 & clientIdA & connIdA & proof
                    & connIdB & proofAck & proofConfirm & -> & ->).
  exists args, clientIdB, args2, clientIdA, connIdA, proof, connIdB, proofAck,
    proofConfirm.
  repeat split.
Qed.

(** Two chains that have not met: the six transactions are broadcast, and
    the link holds [connection-0] on both sides. *)
Lemma createWithNewConnections_transactions_witness :
  exists link,
    outcome Sim.handler (createWithNewConnections Chain1 Chain2) Sim.fresh
    = OK link
    /\ List.length (transactions
                 (trace Sim.handler (createWithNewConnections Chain1 Chain2)
                    Sim.fresh)) = 6%nat
    /\ connectionID (endA link) = "connection-0"
    /\ connectionID (endB link) = "connection-0".
Proof.
  eexists; split; [vm_compute; reflexivity |].
  destruct (createWithNewConnections_transactions Sim.World Sim.handler
              Chain1 Chain2 Sim.fresh _ eq_refl)
    as (args & clientIdB & args2 & clientIdA & connIdA & proof & connIdB
        & proofAck & proofConfirm & _ & Htx & _).
  split; [rewrite Htx; reflexivity |].
  split; reflexivity.
Defined.

(** C6: a construction from existing connections broadcasts no
    transaction, whether it fails or not, and it returns a link only when
    both connections it queried exist and have a counterparty, both are
    OPEN, and the client of each is the counterparty client of the other;
    the link holds these client ids and the two connection ids. *)
Theorem createWithExistingConnections_checks :
  forall (World : Type)
         (handler : forall X : Type, Call X -> World -> Result X * World)
         (nodeA nodeB : IbcClient) (connA connB : string) (w : World),
    transactions
      (trace handler (createWithExistingConnections nodeA nodeB connA connB) w)
    = []
    /\ forall link,
        outcome handler
          (createWithExistingConnections nodeA nodeB connA connB) w = OK link ->
        exists connectionA connectionB counterpartyA counterpartyB rest,
          trace handler
            (createWithExistingConnections nodeA nodeB connA connB) w
          = step (connection nodeA connA) (OK (Some connectionA))
              :: step (connection nodeB connB) (OK (Some connectionB))
              :: rest
          /\ counterparty connectionA = Some counterpartyA
          /\ counterparty connectionB = Some counterpartyB
          /\ state connectionA = STATE_OPEN
          /\ state connectionB = STATE_OPEN
          /\ clientId connectionA = counterpartyClientId counterpartyB
          /\ clientId connectionB = counterpartyClientId counterpartyA
          /\ clientID (endA link) = counterpartyClientId counterpartyB
          /\ clientID (endB link) = counterpartyClientId counterpartyA
          /\ connectionID (endA link) = connA
          /\ connectionID (endB link) = connB.
Proof.
  intros World handler nodeA nodeB connA connB w; split.
  - apply QueryOnly_trace, createWithExistingConnections_QueryOnly.
  - intros link H.
    unfold outcome, trace in *.
    destruct (run handler
                (createWithExistingConnections nodeA nodeB connA connB) w)
      as [[t out] w'] eqn:Hrun.
    simpl in *; subst out.
    apply createWithExistingConnections_run in Hrun.
    destruct Hrun as (connectionA & connectionB & counterpartyA
                      & counterpartyB & chainIdA & chainIdB & clientStateA
                      & clientStateB & consensusA & headerB & consensusB
                      & headerA & -> & -> & HcpA & HcpB & HstA & HstB & HidA
                      & HidB & _).
    exists connectionA, connectionB, counterpartyA, counterpartyB.
    eexists; split; [reflexivity |].
    simpl; repeat split; assumption.
Qed.

(** Scenario 2: both chains have [connection-0] open on
    [07-tendermint-0]; the construction succeeds and broadcasts
    nothing. *)
Lemma createWithExistingConnections_checks_witness :
  transactions
    (trace Sim.handler
       (createWithExistingConnections Chain1 Chain2 "connection-0"
          "connection-0") Sim.quiet) = []
  /\ outcome Sim.handler
       (createWithExistingConnections Chain1 Chain2 "connection-0"
          "connection-0") Sim.quiet = OK Sim.link
  /\ exists counterpartyB,
      clientID (endA Sim.link) = counterpartyClientId counterpartyB.
Proof.
  destruct (createWithExistingConnections_checks Sim.World Sim.handler
              Chain1 Chain2 "connection-0" "connection-0" Sim.quiet)
    as [Hquiet Hlink].
  split; [exact Hquiet |].
  split; [reflexivity |].
  destruct (Hlink Sim.link eq_refl)
    as (connectionA & connectionB & counterpartyA & counterpartyB & rest
        & _ & _ & _ & _ & _ & _ & _ & HidA & _).
  exists counterpartyB; exact HidA.
Defined.

(** C7: the comparison of one side, given the consensus state that side
    stores and the header of the counterparty, passes when the next
    validators hashes are equal and the root hash is there and equal to
    the app hash, and otherwise fails with a ConsensusError.  A
    construction from existing connections that returns a link has ended
    with the two comparisons, on the latest heights of the two clients,
    and both have passed; one that fails throws a ConsensusError or the
    error of one of its calls. *)
Theorem headers_match_consensus_state :
  forall (World : Type)
         (handler : forall X : Type, Call X -> World -> Result X * World),
    (forall (this : Link) (proofSide : Side) (cid : string)
            (h : option Height) (w w1 w2 : World) (cs : ConsensusState)
            (hd : Header),
        handler _ (consensusStateTm (client (src (getEnds this proofSide)))
                     cid h) w = (OK cs, w1) ->
        handler _ (header (client (dest (getEnds this proofSide)))
                     (toIntHeight h)) w1 = (OK hd, w2) ->
        (headersMatch cs hd ->
         outcome handler
           (assertHeadersMatchConsensusState this proofSide cid h) w = OK tt)
        /\ (~ headersMatch cs hd ->
            exists e,
              outcome handler
                (assertHeadersMatchConsensusState this proofSide cid h) w
              = Err e
              /\ errorKind e = ConsensusError))
    /\ (forall (nodeA nodeB : IbcClient) (connA connB : string) (w : World)
               (link : Link),
          outcome handler
            (createWithExistingConnections nodeA nodeB connA connB) w
          = OK link ->
          exists pre clientStateA clientStateB consensusA headerB consensusB
                 headerA,
            trace handler
              (createWithExistingConnections nodeA nodeB connA connB) w
            = pre
                ++ [step (consensusStateTm nodeA (clientID (endA link))
                            (latestHeight clientStateA)) (OK consensusA);
                    step (header nodeB
                            (toIntHeight (latestHeight clientStateA)))
                      (OK headerB);
                    step (consensusStateTm nodeB (clientID (endB link))
                            (latestHeight clientStateB)) (OK consensusB);
                    step (header nodeA
                            (toIntHeight (latestHeight clientStateB)))
                      (OK headerA)]
            /\ In (step (stateTm nodeA (clientID (endA link)))
                     (OK clientStateA)) pre
            /\ In (step (stateTm nodeB (clientID (endB link)))
                     (OK clientStateB)) pre
            /\ headersMatch consensusA headerB
            /\ headersMatch consensusB headerA)
    /\ (forall (nodeA nodeB : IbcClient) (connA connB : string) (w : World)
               (e : Error),
          outcome handler
            (createWithExistingConnections nodeA nodeB connA connB) w
          = Err e ->
          errorKind e = ConsensusError
          \/ exists (X : Type) (c : Call X),
              In (step c (Err e))
                (trace handler
                   (createWithExistingConnections nodeA nodeB connA connB)
                   w)).
Proof.
  intros World handler; split; [| split].
  - intros this proofSide cid h w w1 w2 cs hd Hcs Hhd.
    rewrite (assertHeadersMatchConsensusState_run handler this proofSide cid h
               w w1 w2 cs hd Hcs Hhd).
    unfold headersMatch; split.
    + intros [Hv (r & Hr & Hh)].
      apply arrayContentEquals_eq in Hv, Hh.
      rewrite Hv, Hr, Hh; reflexivity.
    + intro Hno.
      destruct (arrayContentEquals (nextValidatorsHash cs)
                  (headerNextValidatorsHash hd)) eqn:Ev; simpl;
        [| eexists; split; reflexivity].
      destruct (root cs) as [r |]; [| eexists; split; reflexivity].
      destruct (arrayContentEquals (hash r) (appHash hd)) eqn:Eh; simpl;
        [| eexists; split; reflexivity].
      exfalso; apply Hno.
      apply arrayContentEquals_eq in Ev, Eh.
      split; [exact Ev | exists r; split; [reflexivity | exact Eh]].
  - intros nodeA nodeB connA connB w link H.
    unfold outcome, trace in *.
    destruct (run handler
                (createWithExistingConnections nodeA nodeB connA connB) w)
      as [[t out] w'] eqn:Hrun.
    simpl in *; subst out.
    apply createWithExistingConnections_run in Hrun.
    destruct Hrun as (connectionA & connectionB & counterpartyA
                      & counterpartyB & chainIdA & chainIdB & clientStateA
                      & clientStateB & consensusA & headerB & consensusB
                      & headerA & -> & -> & _ & _ & _ & _ & _ & _ & _ & _
                      & HmA & HmB).
    exists [step (connection nodeA connA) (OK (Some connectionA));
            step (connection nodeB connB) (OK (Some connectionB));
            step (getChainId nodeA) (OK chainIdA);
            step (getChainId nodeB) (OK chainIdB);
            step (stateTm nodeA (clientId connectionA)) (OK clientStateA);
            step (stateTm nodeB (clientId connectionB)) (OK clientStateB)].
    exists clientStateA, clientStateB, consensusA, headerB, consensusB,
      headerA.
    split; [reflexivity |].
    split; [simpl; do 4 right; left; reflexivity |].
    split; [simpl; do 5 right; left; reflexivity |].
    split; assumption.
  - intros nodeA nodeB connA connB w e H.
    unfold outcome, trace in *.
    destruct (run handler
                (createWithExistingConnections nodeA nodeB connA connB) w)
      as [[t out] w'] eqn:Hrun.
    simpl in *; subst out.
    exact (createWithExistingConnections_fails handler nodeA nodeB connA connB
             w w' t e Hrun).
Qed.

(** Scenario 3, on the hashes: chain B stores a root for A that is not
    the app hash of A; the comparison on side B fails with a
    ConsensusError, and so does the construction. *)
Lemma headers_match_consensus_state_witness :
  (exists e,
      outcome Sim.handler
        (assertHeadersMatchConsensusState Sim.link B "07-tendermint-0"
           (Some (mkHeight 0 5))) Sim.forked = Err e
      /\ errorKind e = ConsensusError)
  /\ outcome Sim.handler
       (createWithExistingConnections Chain1 Chain2 "connection-0"
          "connection-0") Sim.forked = Err AppHashMismatch
  /\ (errorKind AppHashMismatch = ConsensusError
      \/ exists (X : Type) (c : Call X),
          In (step c (Err AppHashMismatch))
            (trace Sim.handler
               (createWithExistingConnections Chain1 Chain2 "connection-0"
                  "connection-0") Sim.forked)).
Proof.
  destruct (headers_match_consensus_state Sim.World Sim.handler)
    as (Hassert & _ & Hfails).
  split; [| split].
  - refine (proj2 (Hassert Sim.link B "07-tendermint-0" (Some (mkHeight 0 5))
                     Sim.forked Sim.forked Sim.forked _ _ eq_refl eq_refl) _).
    intros [_ (r & Hr & Hh)].
    injection Hr as <-; discriminate Hh.
  - reflexivity.
  - apply (Hfails Chain1 Chain2 "connection-0" "connection-0" Sim.forked).
    reflexivity.
Defined.

(** * More properties of the code *)

(** ** Sides *)

(** Every method of a link that takes a side does, on the link with its
    ends exchanged and for the other side, what it does on the link for
    the side. *)
Theorem side_symmetry :
  forall (parseAcksFromLogs : list Log -> list Ack) (secondsOfDate : Z -> Z)
         (this : Link) (s : Side),
    getEnds (swapEnds this) (otherSide s) = getEnds this s
    /\ updateClient (swapEnds this) (otherSide s) = updateClient this s
    /\ (forall maxAge,
           updateClientIfStale secondsOfDate (swapEnds this) (otherSide s)
             maxAge
           = updateClientIfStale secondsOfDate this s maxAge)
    /\ (forall minHeight,
           updateClientToHeight (swapEnds this) (otherSide s) minHeight
           = updateClientToHeight this s minHeight)
    /\ (forall cid h,
           assertHeadersMatchConsensusState (swapEnds this) (otherSide s)
             cid h
           = assertHeadersMatchConsensusState this s cid h)
    /\ lastKnownHeader (swapEnds this) (otherSide s) = lastKnownHeader this s
    /\ (forall opts,
           getPendingPackets (swapEnds this) (otherSide s) opts
           = getPendingPackets this s opts)
    /\ (forall opts,
           getPendingAcks (swapEnds this) (otherSide s) opts
           = getPendingAcks this s opts)
    /\ (forall packets,
           relayPackets parseAcksFromLogs (swapEnds this) (otherSide s)
             packets
           = relayPackets parseAcksFromLogs this s packets)
    /\ (forall acks,
           relayAcks (swapEnds this) (otherSide s) acks
           = relayAcks this s acks)
    /\ (forall srcPort destPort ordering version,
           Channel.createChannel (swapEnds this) (otherSide s) srcPort
             destPort ordering version
           = Channel.createChannel this s srcPort destPort ordering version).
Proof.
  intros parse secs [endA endB] [|]; repeat split.
Qed.

(** ** The metrics server *)

Lemma setupAll_initialized (calls : list (bool * Z)) (p : Prometheus.Process) :
  Prometheus.initialized p = true ->
  forallb Prometheus.isThrown (fst (Prometheus.setupAll calls p)) = true
  /\ snd (Prometheus.setupAll calls p) = p.
Proof.
  intro Hp; induction calls as [| [enabled port] rest IH]; simpl.
  - split; reflexivity.
  - unfold Prometheus.setupPrometheus; rewrite Hp.
    destruct (Prometheus.setupAll rest p) as [outs p2]; simpl in *.
    exact IH.
Qed.

(** Of the calls of [setupPrometheus] that a process makes, every call
    after the first throws, whatever the arguments and whatever the first
    call did.  The first call returns [null] when it is not enabled; when
    it is enabled it returns the metrics and a server listens on its
    port, if that port is from 0 to 65535, and otherwise it throws with
    the default metrics collected and no server listening.  In each case
    the flag is set: a first call that is not enabled, or that throws on
    its port, leaves no way to start the metrics server later. *)
Theorem setupPrometheus_only_once :
  forall (enabled : bool) (port : Z) (later : list (bool * Z)),
    let outs := fst (Prometheus.setupAll ((enabled, port) :: later)
                       Prometheus.fresh) in
    let p := snd (Prometheus.setupAll ((enabled, port) :: later)
                    Prometheus.fresh) in
    hd_error outs
    = Some (if enabled
            then if Prometheus.validPort port
                 then Prometheus.Returned (Some Prometheus.getMetrics)
                 else Prometheus.Thrown "ERR_SOCKET_BAD_PORT"
            else Prometheus.Returned None)
    /\ forallb Prometheus.isThrown (tl outs) = true
    /\ Prometheus.listening p
       = (if enabled && Prometheus.validPort port then [port] else [])
    /\ Prometheus.collected p = (if enabled then ["relayer_"] else [])
    /\ Prometheus.initialized p = true.
Proof.
  intros enabled port later; simpl.
  unfold Prometheus.setupPrometheus; simpl.
  destruct enabled; simpl; [destruct (Prometheus.validPort port); simpl |].
  - destruct (setupAll_initialized later
                (Prometheus.mkProcess true ["relayer_"] [port]) eq_refl)
      as [Hthrown Hsame].
    destruct (Prometheus.setupAll later _) as [outs p2]; simpl in *.
    subst p2; repeat split; assumption.
  - destruct (setupAll_initialized later
                (Prometheus.mkProcess true ["relayer_"] []) eq_refl)
      as [Hthrown Hsame].
    destruct (Prometheus.setupAll later _) as [outs p2]; simpl in *.
    subst p2; repeat split; assumption.
  - destruct (setupAll_initialized later
                (Prometheus.mkProcess true [] []) eq_refl)
      as [Hthrown Hsame].
    destruct (Prometheus.setupAll later _) as [outs p2]; simpl in *.
    subst p2; repeat split; assumption.
Qed.

(** ** Channels *)

Section Channels.
Context {World : Type}.
Variable handler : forall X : Type, Channel.Call X -> World -> Result X * World.

Lemma createChannel_run (this : Link) (sender : Side)
  (srcPort destPort : string) (ordering : Channel.Order) (version : string)
  (w w' : World) (t : list Channel.Step) (out : Result Channel.ChannelPair) :
  Channel.run handler
    (Channel.createChannel this sender srcPort destPort ordering version) w
  = (t, out, w') ->
  let src := src (getEnds this sender) in
  let dest := dest (getEnds this sender) in
  (forall pair, out = OK pair ->
     exists channelIdSrc proof channelIdDest proofAck proofConfirm,
       t = [Channel.step
              (Channel.channelOpenInit (client src) srcPort destPort ordering
                 (connectionID src) version) (OK channelIdSrc);
            Channel.step
              (Channel.prepareChannelHandshake (client src) (client dest)
                 (clientID dest) srcPort channelIdSrc) (OK proof);
            Channel.step
              (Channel.channelOpenTry (client dest) destPort
                 (Channel.mkChannelInfo srcPort channelIdSrc) ordering
                 (connectionID src) version version proof)
              (OK channelIdDest);
            Channel.step
              (Channel.prepareChannelHandshake (client dest) (client src)
                 (clientID src) destPort channelIdDest) (OK proofAck);
            Channel.step
              (Channel.channelOpenAck (client src) srcPort channelIdSrc
                 channelIdDest version proofAck) (OK tt);
            Channel.step
              (Channel.prepareChannelHandshake (client src) (client dest)
                 (clientID dest) srcPort channelIdSrc) (OK proofConfirm);
            Channel.step
              (Channel.channelOpenConfirm (client dest) destPort
                 channelIdDest proofConfirm) (OK tt)]
       /\ pair = Channel.mkChannelPair
                   (Channel.mkChannelInfo srcPort channelIdSrc)
                   (Channel.mkChannelInfo destPort channelIdDest))
  /\ (forall e, out = Err e ->
        exists pre (X : Type) (c : Channel.Call X),
          t = pre ++ [Channel.step c (Err e)]
          /\ forallb Channel.stepOK pre = true).
Proof.
  intros H src dest; subst src dest.
  destruct this as [endA endB], sender;
    unfold Channel.createChannel in H; simpl in H; split.
  1, 3: intros pair ->;
    do 7 (answer handler H; [| discriminate H]);
    injection H as <- <- <-;
    repeat match goal with u : unit |- _ => destruct u end;
    do 5 eexists; split; reflexivity.
  all: intros e ->;
    repeat (answer handler H; [| injection H as <- <- <-; stopped ]);
    discriminate H.
Qed.
End Channels.

(** A channel that [createChannel] returns was opened by these calls and
    no other: [channelOpenInit] on the sender, [channelOpenTry] on the
    other side, [channelOpenAck] on the sender and [channelOpenConfirm] on
    the other side, each of the last three after the proof prepared for
    it.  Both the init and the try are given the connection id of the
    sender's end, the version is passed unchanged as version and as
    counterparty version, and the pair returned holds the two ports given
    and the two channel ids minted. *)
Theorem createChannel_handshake :
  forall (World : Type)
         (handler : forall X : Type,
             Channel.Call X -> World -> Result X * World)
         (this : Link) (sender : Side) (srcPort destPort : string)
         (ordering : Channel.Order) (version : string) (w w' : World)
         (t : list Channel.Step) (pair : Channel.ChannelPair),
    Channel.run handler
      (Channel.createChannel this sender srcPort destPort ordering version) w
    = (t, OK pair, w') ->
    let src := src (getEnds this sender) in
    let dest := dest (getEnds this sender) in
    exists channelIdSrc proof channelIdDest proofAck proofConfirm,
      t = [Channel.step
             (Channel.channelOpenInit (client src) srcPort destPort ordering
                (connectionID src) version) (OK channelIdSrc);
           Channel.step
             (Channel.prepareChannelHandshake (client src) (client dest)
                (clientID dest) srcPort channelIdSrc) (OK proof);
           Channel.step
             (Channel.channelOpenTry (client dest) destPort
                (Channel.mkChannelInfo srcPort channelIdSrc) ordering
                (connectionID src) version version proof)
             (OK channelIdDest);
           Channel.step
             (Channel.prepareChannelHandshake (client dest) (client src)
                (clientID src) destPort channelIdDest) (OK proofAck);
           Channel.step
             (Channel.channelOpenAck (client src) srcPort channelIdSrc
                channelIdDest version proofAck) (OK tt);
           Channel.step
             (Channel.prepareChannelHandshake (client src) (client dest)
                (clientID dest) srcPort channelIdSrc) (OK proofConfirm);
           Channel.step
             (Channel.channelOpenConfirm (client dest) destPort
                channelIdDest proofConfirm) (OK tt)]
      /\ List.length (filter Channel.stepBroadcasts t) = 4%nat
      /\ pair = Channel.mkChannelPair
                  (Channel.mkChannelInfo srcPort channelIdSrc)
                  (Channel.mkChannelInfo destPort channelIdDest).
Proof.
  intros World handler this sender srcPort destPort ordering version w w' t
    pair H src dest.
  destruct (proj1 (createChannel_run handler this sender srcPort destPort
                     ordering version w w' t (OK pair) H) pair eq_refl)
    as (channelIdSrc & proof & channelIdDest & proofAck & proofConfirm
        & -> & ->).
  exists channelIdSrc, proof, channelIdDest, proofAck, proofConfirm.
  repeat split.
Qed.

(** Scenario 4: on two fresh chains the channel is [channel-0] on each
    side, after four transactions. *)
Lemma createChannel_handshake_witness :
  exists t,
    Channel.run Channel.handler
      (Channel.createChannel Sim.link A "transfer" "transfer"
         Channel.ORDER_UNORDERED "ics20-1") (0%nat, 0%nat)
    = (t,
       OK (Channel.mkChannelPair (Channel.mkChannelInfo "transfer" "channel-0")
             (Channel.mkChannelInfo "transfer" "channel-0")),
       (1%nat, 1%nat))
    /\ List.length (filter Channel.stepBroadcasts t) = 4%nat.
Proof.
  eexists; split; [reflexivity |].
  destruct (createChannel_handshake Channel.World Channel.handler Sim.link A
              "transfer" "transfer" Channel.ORDER_UNORDERED "ics20-1"
              (0%nat, 0%nat) _ _ _ eq_refl)
    as (channelIdSrc & proof & channelIdDest & proofAck & proofConfirm
        & _ & Hfour & _).
  exact Hfour.
Defined.

(** When [createChannel] fails, the error is the one of the call it made
    last, and every call before that one was accepted: it stops at the
    first call that is rejected and undoes nothing. *)
Theorem createChannel_stops_at_first_failure :
  forall (World : Type)
         (handler : forall X : Type,
             Channel.Call X -> World -> Result X * World)
         (this : Link) (sender : Side) (srcPort destPort : string)
         (ordering : Channel.Order) (version : string) (w w' : World)
         (t : list Channel.Step) (e : Error),
    Channel.run handler
      (Channel.createChannel this sender srcPort destPort ordering version) w
    = (t, Err e, w') ->
    exists pre (X : Type) (c : Channel.Call X),
      t = pre ++ [Channel.step c (Err e)]
      /\ forallb Channel.stepOK pre = true.
Proof.
  intros World handler this sender srcPort destPort ordering version w w' t
    e H.
  exact (proj2 (createChannel_run handler this sender srcPort destPort
                  ordering version w w' t (Err e) H) e eq_refl).
Qed.

(** The chains stop answering after the init and the first proof: the
    try is rejected and is the last call; the channel of the sender stays
    as the init left it. *)
Lemma createChannel_stops_at_first_failure_witness :
  exists t w',
    Channel.run flakyChannel
      (Channel.createChannel Sim.link A "transfer" "transfer"
         Channel.ORDER_UNORDERED "ics20-1") (2%nat, (0%nat, 0%nat))
    = (t, Err (CollaboratorError "unreachable"), w')
    /\ List.length t = 3%nat
    /\ exists pre (X : Type) (c : Channel.Call X),
        t = pre ++ [Channel.step c (Err (CollaboratorError "unreachable"))]
        /\ forallb Channel.stepOK pre = true.
Proof.
  eexists _, _; split; [reflexivity |].
  split; [reflexivity |].
  apply (createChannel_stops_at_first_failure _ flakyChannel Sim.link A
           "transfer" "transfer" Channel.ORDER_UNORDERED "ics20-1"
           (2%nat, (0%nat, 0%nat)) _ _ _ eq_refl).
Defined.

(** ** Construction, continued *)

Lemma run_bind_Ret {World R : Type}
  (handler : forall X : Type, Call X -> World -> Result X * World)
  (p : Prog R) (w : World) :
  run handler (x <- p ;; Ret x) w = run handler p w.
Proof.
  rewrite run_bind.
  destruct (run handler p w) as [[t [r | e]] w1]; simpl; [| reflexivity].
  rewrite app_nil_r; reflexivity.
Qed.

(** When [createWithNewConnections] fails, the error is the one of the
    call it made last and every call before that one was accepted: the
    handshake stops at the first call that is rejected, with the clients
    and the connection ends created so far left on the chains. *)
Theorem createWithNewConnections_stops_at_first_failure :
  forall (World : Type)
         (handler : forall X : Type, Call X -> World -> Result X * World)
         (nodeA nodeB : IbcClient) (w w' : World) (t : list Step) (e : Error),
    run handler (createWithNewConnections nodeA nodeB) w = (t, Err e, w') ->
    exists pre (X : Type) (c : Call X),
      t = pre ++ [step c (Err e)] /\ forallb stepOK pre = true.
Proof.
  intros World handler nodeA nodeB w w' t e H.
  unfold createWithNewConnections, createClients in H; simpl in H.
  repeat (answer handler H; [| injection H as <- <- <-; stopped ]).
  discriminate H.
Qed.

(** The chains stop answering after seven calls: the second proof is not
    prepared, after four transactions (the two clients, the init and the
    try) have been accepted. *)
Lemma createWithNewConnections_stops_at_first_failure_witness :
  exists t w',
    run flaky (createWithNewConnections Chain1 Chain2) (7%nat, Sim.fresh)
    = (t, Err (CollaboratorError "unreachable"), w')
    /\ List.length (transactions t) = 4%nat
    /\ exists pre (X : Type) (c : Call X),
        t = pre ++ [step c (Err (CollaboratorError "unreachable"))]
        /\ forallb stepOK pre = true.
Proof.
  eexists _, _; split; [reflexivity |].
  split; [reflexivity |].
  apply (createWithNewConnections_stops_at_first_failure _ flaky Chain1 Chain2
           (7%nat, Sim.fresh) _ _ _ eq_refl).
Defined.

(** A link that [createWithExistingConnections] returns joins the chains
    its two clients track: the chain id of each node is the chain id in
    the state of the client that the other node holds. *)
Theorem createWithExistingConnections_chain_ids :
  forall (World : Type)
         (handler : forall X : Type, Call X -> World -> Result X * World)
         (nodeA nodeB : IbcClient) (connA connB : string) (w w' : World)
         (t : list Step) (link : Link),
    run handler (createWithExistingConnections nodeA nodeB connA connB) w
    = (t, OK link, w') ->
    exists chainIdA chainIdB clientStateA clientStateB,
      In (step (getChainId nodeA) (OK chainIdA)) t
      /\ In (step (getChainId nodeB) (OK chainIdB)) t
      /\ In (step (stateTm nodeA (clientID (endA link))) (OK clientStateA)) t
      /\ In (step (stateTm nodeB (clientID (endB link))) (OK clientStateB)) t
      /\ chainIdA = chainId clientStateB
      /\ chainIdB = chainId clientStateA.
Proof.
  intros World handler nodeA nodeB connA connB w w' t link H.
  apply createWithExistingConnections_run in H.
  destruct H as (connectionA & connectionB & counterpartyA & counterpartyB
                 & chainIdA & chainIdB & clientStateA & clientStateB
                 & consensusA & headerB & consensusB & headerA & -> & -> & _
                 & _ & _ & _ & _ & _ & HchA & HchB & _).
  exists chainIdA, chainIdB, clientStateA, clientStateB; simpl.
  split; [do 2 right; left; reflexivity |].
  split; [do 3 right; left; reflexivity |].
  split; [do 4 right; left; reflexivity |].
  split; [do 5 right; left; reflexivity |].
  split; assumption.
Qed.

Lemma createWithExistingConnections_chain_ids_witness :
  exists chainIdA clientStateB,
    In (step (getChainId Chain1) (OK chainIdA))
      (trace Sim.handler
         (createWithExistingConnections Chain1 Chain2 "connection-0"
            "connection-0") Sim.quiet)
    /\ chainIdA = chainId clientStateB
    /\ chainIdA = "network-1".
Proof.
  destruct (createWithExistingConnections_chain_ids _ Sim.handler Chain1
              Chain2 "connection-0" "connection-0" Sim.quiet _ _ _ eq_refl)
    as (chainIdA & chainIdB & clientStateA & clientStateB & HA & _ & _ & _
        & HchA & _).
  exists chainIdA, clientStateB.
  split; [exact HA |].
  split; [exact HchA |].
  simpl in HA.
  repeat (destruct HA as [HA | HA]; [try discriminate HA |]);
    try contradiction.
  apply (f_equal (fun s => match s with
                           | step (getChainId _) (OK x) => x
                           | _ => EmptyString
                           end)) in HA.
  simpl in HA; symmetry; exact HA.
Defined.

(** ** The link of the ics20 bootstrap *)

(** With the two connections of an app file that [resolveConnections]
    accepts, [resolveLink] broadcasts no transaction, and the link it
    returns has the [srcConnection] of the file at its end A and the
    [destConnection] at its end B: what is written back to the file is
    what was read.  With no connection in the file it does what
    [createWithNewConnections] does. *)
Theorem resolveLink_adopts_the_connections :
  forall (World : Type)
         (handler : forall X : Type, Call X -> World -> Result X * World)
         (app : Ics20.AppConfig) (nodeA nodeB : IbcClient) (w : World),
    (forall c,
        Ics20.resolveConnections app = OK (Some c) ->
        transactions (trace handler (resolveLink nodeA nodeB (Some c)) w) = []
        /\ forall link,
            outcome handler (resolveLink nodeA nodeB (Some c)) w = OK link ->
            Ics20.srcConnection app = Some (connectionID (endA link))
            /\ Ics20.destConnection app = Some (connectionID (endB link)))
    /\ (Ics20.resolveConnections app = OK None ->
        run handler (resolveLink nodeA nodeB None) w
        = run handler (createWithNewConnections nodeA nodeB) w).
Proof.
  intros World handler app nodeA nodeB w; split.
  - intros c Hc; split.
    + apply QueryOnly_trace; unfold resolveLink.
      apply QueryOnly_bind;
        [apply createWithExistingConnections_QueryOnly | constructor].
    + intros link H.
      unfold outcome, resolveLink in H.
      rewrite run_bind_Ret in H.
      destruct (run handler
                  (createWithExistingConnections nodeA nodeB (Ics20.src c)
                     (Ics20.dest c)) w) as [[t out] w'] eqn:Hrun.
      simpl in H; subst out.
      apply createWithExistingConnections_run in Hrun.
      destruct Hrun as (connectionA & connectionB & counterpartyA
                        & counterpartyB & chainIdA & chainIdB & clientStateA
                        & clientStateB & consensusA & headerB & consensusB
                        & headerA & _ & -> & _).
      simpl.
      destruct app as [[s |] [d |]]; unfold Ics20.resolveConnections in Hc;
        simpl in Hc;
        repeat match type of Hc with
               | context [String.eqb ?a ?b] =>
                   destruct (String.eqb a b); simpl in Hc
               end;
        try discriminate Hc;
        injection Hc as <-; split; reflexivity.
  - intros _; unfold resolveLink; apply run_bind_Ret.
Qed.

Lemma resolveLink_adopts_the_connections_witness :
  transactions
    (trace Sim.handler
       (resolveLink Chain1 Chain2
          (Some (Ics20.mkConnections "connection-0" "connection-0")))
       Sim.quiet) = []
  /\ outcome Sim.handler
       (resolveLink Chain1 Chain2
          (Some (Ics20.mkConnections "connection-0" "connection-0")))
       Sim.quiet = OK Sim.link
  /\ run Sim.handler (resolveLink Chain1 Chain2 None) Sim.fresh
     = run Sim.handler (createWithNewConnections Chain1 Chain2) Sim.fresh.
Proof.
  destruct (resolveLink_adopts_the_connections _ Sim.handler
              (Ics20.mkAppConfig (Some "connection-0") (Some "connection-0"))
              Chain1 Chain2 Sim.quiet) as [Hsome _].
  destruct (Hsome (Ics20.mkConnections "connection-0" "connection-0") eq_refl)
    as [Hquiet _].
  split; [exact Hquiet |].
  split; [reflexivity |].
  apply (proj2 (resolveLink_adopts_the_connections _ Sim.handler
                  (Ics20.mkAppConfig None None) Chain1 Chain2 Sim.fresh)).
  reflexivity.
Defined.

(** ** Updating the client, continued *)





(** [updateClientIfStale], once the consensus state that the destination
    stores and the latest header of the sender are there: it returns
    [null] after these two queries, and broadcasts nothing, exactly when
    the consensus state has a timestamp whose seconds are not 0 and the
    header is less than [maxAge] seconds younger; in every other case,
    also when the timestamp is missing or at 0 seconds whatever [maxAge]
    is, it updates the client and returns the height of the update. *)
Theorem updateClientIfStale_spec :
  forall (World : Type)
         (handler : forall X : Type, Call X -> World -> Result X * World)
         (secondsOfDate : Z -> Z) (this : Link) (sender : Side) (maxAge : Z)
         (w w1 w2 : World) (cs : ConsensusState) (hd : Header),
    let src := src (getEnds this sender) in
    let dest := dest (getEnds this sender) in
    let known := match timestamp cs with
                 | Some ts => seconds ts
                 | None => None
                 end in
    let fresh := exists k,
        known = Some k /\ k <> 0 /\ secondsOfDate (time hd) - k < maxAge in
    handler _ (consensusStateTm (client dest) (clientID dest) None) w
    = (OK cs, w1) ->
    handler _ (latestHeader (client src)) w1 = (OK hd, w2) ->
    (fresh ->
     run handler (updateClientIfStale secondsOfDate this sender maxAge) w
     = ([step (consensusStateTm (client dest) (clientID dest) None) (OK cs);
         step (latestHeader (client src)) (OK hd)],
        OK None, w2))
    /\ (~ fresh ->
        forall r w3,
          handler _ (doUpdateClient (client dest) (clientID dest)
                       (client src)) w2 = (r, w3) ->
          run handler (updateClientIfStale secondsOfDate this sender maxAge) w
          = ([step (consensusStateTm (client dest) (clientID dest) None)
                (OK cs);
              step (latestHeader (client src)) (OK hd);
              step (doUpdateClient (client dest) (clientID dest)
                      (client src)) r],
             mapResult Some r, w3)).
Proof.
  intros World handler secs this sender maxAge w w1 w2 cs hd src dest known
    fresh Hcs Hhd.
  subst src dest fresh known.
  unfold updateClientIfStale, updateClient; simpl.
  rewrite Hcs; simpl; rewrite Hhd; simpl.
  split.
  - intros (k & Hk & Hnz & Hlt).
    rewrite Hk.
    destruct (Z.eqb_spec k 0) as [-> | _]; [contradiction Hnz; reflexivity |].
    simpl.
    destruct (Z.ltb_spec (secs (time hd) - k) maxAge) as [_ | Hge];
      [reflexivity | lia].
  - intros Hstale r w3 Hu.
    destruct (match timestamp cs with
              | Some ts => seconds ts
              | None => None
              end) as [k |] eqn:Ek.
    + destruct (Z.eqb_spec k 0) as [-> | Hnz]; simpl.
      * rewrite Hu; destruct r; reflexivity.
      * destruct (Z.ltb_spec (secs (time hd) - k) maxAge) as [Hlt | _].
        -- exfalso; apply Hstale; exists k; repeat split; assumption.
        -- simpl; rewrite Hu; destruct r; reflexivity.
    + simpl; rewrite Hu; destruct r; reflexivity.
Qed.

(** A consensus state stamped 3 s under a header of second 5 is fresh for
    a [maxAge] of 60 s; one stamped 0 s is updated under any [maxAge]. *)
Lemma updateClientIfStale_spec_witness :
  outcome (stamped 3) (updateClientIfStale (fun date => date) Sim.link A 60)
    Sim.quiet = OK None
  /\ transactions
       (trace (stamped 3)
          (updateClientIfStale (fun date => date) Sim.link A 60) Sim.quiet)
     = []
  /\ outcome (stamped 0)
       (updateClientIfStale (fun date => date) Sim.link A 1000000000)
       Sim.quiet = OK (Some (mkHeight 0 5)).
Proof.
  pose proof (updateClientIfStale_spec _ (stamped 3) (fun date => date)
                Sim.link A 60 Sim.quiet Sim.quiet Sim.quiet _ _ eq_refl
                eq_refl) as [Hfresh _].
  pose proof (updateClientIfStale_spec _ (stamped 0) (fun date => date)
                Sim.link A 1000000000 Sim.quiet Sim.quiet Sim.quiet _ _
                eq_refl eq_refl) as [_ Hstale].
  assert (H3 : exists k, Some 3 = Some k /\ k <> 0 /\ 5 - k < 60)
    by (exists 3; repeat split; lia).
  specialize (Hfresh H3).
  assert (H0 : ~ exists k, Some 0 = Some k /\ k <> 0 /\ 5 - k < 1000000000)
    by (intros (k & Hk & Hnz & _); injection Hk as <-; apply Hnz; reflexivity).
  specialize (Hstale H0 _ _ eq_refl).
  unfold outcome, trace.
  rewrite Hfresh, Hstale.
  repeat split.
Defined.

(** ** The ids that packets are grouped under *)

Lemma split_at_free (d : ascii) (s : string) :
  free_of d s = true -> split_at d s = [s].
Proof.
  induction s as [| c s IH]; simpl; [reflexivity |].
  destruct (Ascii.eqb c d); simpl; [discriminate |].
  intro H; rewrite (IH H); reflexivity.
Qed.

Lemma split_at_append (d : ascii) (a b : string) :
  free_of d a = true ->
  split_at d (a ++ String d b)%string = a :: split_at d b.
Proof.
  induction a as [| c a IH]; simpl.
  - rewrite Ascii.eqb_refl; reflexivity.
  - destruct (Ascii.eqb c d); simpl; [discriminate |].
    intro H; rewrite (IH H); reflexivity.
Qed.

Lemma split_at_parts_free (d : ascii) (s : string) :
  Forall (fun part => free_of d part = true) (split_at d s).
Proof.
  induction s as [| c s IH]; simpl.
  - constructor; [reflexivity | constructor].
  - destruct (Ascii.eqb c d) eqn:E.
    + constructor; [reflexivity | exact IH].
    + destruct (split_at d s) as [| part parts].
      * constructor; [simpl; rewrite E; reflexivity | constructor].
      * inversion IH as [| ? ? Hpart Hparts]; subst.
        constructor; [simpl; rewrite E; exact Hpart | exact Hparts].
Qed.

Lemma id_split (port channel : string) :
  split_at idDelim (port ++ String idDelim channel)%string = [port; channel]
  <-> free_of idDelim port = true /\ free_of idDelim channel = true.
Proof.
  split.
  - intro H.
    pose proof (split_at_parts_free idDelim
                  (port ++ String idDelim channel)%string) as Hfree.
    rewrite H in Hfree.
    inversion Hfree as [| ? ? Hp Hrest]; subst.
    inversion Hrest as [| ? ? Hc _]; subst.
    split; assumption.
  - intros [Hp Hc].
    rewrite (split_at_append idDelim port channel Hp).
    rewrite (split_at_free idDelim channel Hc); reflexivity.
Qed.

(** The key that packets are grouped under gives back, when it is split
    at [idDelim], the destination port and channel of a packet (the source
    port and channel, for an ack) exactly when neither holds [idDelim];
    [filterUnreceived] addresses its query to the first two parts of the
    split. *)
Theorem id_split_recovers_port_and_channel :
  forall p : Packet,
    (split_at idDelim (packetId p)
     = [destinationPort p; destinationChannel p]
     <-> free_of idDelim (destinationPort p) = true
         /\ free_of idDelim (destinationChannel p) = true)
    /\ (split_at idDelim (ackId p) = [sourcePort p; sourceChannel p]
        <-> free_of idDelim (sourcePort p) = true
            /\ free_of idDelim (sourceChannel p) = true).
Proof.
  intro p; split; apply id_split.
Qed.

(** ** Records *)

Lemma lookup_assign {V : Type} (o : Record_ V) (k k' : string) (v : V) :
  lookup (assign o k v) k' = if String.eqb k k' then Some v else lookup o k'.
Proof.
  induction o as [| [k0 v0] o IH]; simpl.
  - destruct (String.eqb k k'); reflexivity.
  - destruct (String.eqb_spec k0 k) as [-> | Hne]; simpl.
    + destruct (String.eqb k k'); reflexivity.
    + rewrite IH.
      destruct (String.eqb_spec k0 k') as [<- | _]; [| reflexivity].
      destruct (String.eqb_spec k k0) as [E | _]; [| reflexivity].
      contradiction Hne; symmetry; exact E.
Qed.

Lemma lookup_None {V : Type} (o : Record_ V) (k : string) :
  lookup o k = None <-> ~ In k (map fst o).
Proof.
  induction o as [| [k0 v0] o IH]; simpl.
  - split; [intros _ H; exact H | reflexivity].
  - destruct (String.eqb_spec k0 k) as [-> | Hne].
    + split; [discriminate | intro H; contradiction H; left; reflexivity].
    + rewrite IH; split.
      * intros H [E | Hin]; [exact (Hne E) | exact (H Hin)].
      * intros H Hin; apply H; right; exact Hin.
Qed.

Lemma keys_assign {V : Type} (o : Record_ V) (k : string) (v : V) :
  map fst (assign o k v)
  = match lookup o k with
    | Some _ => map fst o
    | None => map fst o ++ [k]
    end.
Proof.
  induction o as [| [k0 v0] o IH]; simpl; [reflexivity |].
  destruct (String.eqb_spec k0 k) as [-> | Hne]; simpl; [reflexivity |].
  rewrite IH; destruct (lookup o k); reflexivity.
Qed.

Lemma NoDup_assign {V : Type} (o : Record_ V) (k : string) (v : V) :
  NoDup (map fst o) -> NoDup (map fst (assign o k v)).
Proof.
  intro H; rewrite keys_assign.
  destruct (lookup o k) eqn:E; [exact H |].
  apply lookup_None in E.
  apply NoDup_app; [exact H | repeat constructor; intros [] |].
  intros x Hx [<- | []]; exact (E Hx).
Qed.

Lemma packetsPerDestination_from (idFunc : Packet -> string)
  (packets : list Packet) (acc : Record_ (list Z)) (key : string) :
  let step_ := fun (sorted : Record_ (list Z)) packet =>
    let key := idFunc packet in
    assign sorted key
      (match lookup sorted key with
       | Some sequences => sequences
       | None => []
       end ++ [sequence packet]) in
  let new := map sequence
               (filter (fun p => String.eqb (idFunc p) key) packets) in
  (NoDup (map fst acc) -> NoDup (map fst (fold_left step_ packets acc)))
  /\ lookup (fold_left step_ packets acc) key
     = match lookup acc key, new with
       | None, [] => None
       | None, _ :: _ => Some new
       | Some old, _ => Some (old ++ new)
       end.
Proof.
  intros step_ new; subst new.
  revert acc; induction packets as [| p packets IH]; intro acc; simpl.
  - split; [auto |].
    destruct (lookup acc key); [rewrite app_nil_r |]; reflexivity.
  - destruct (IH (step_ acc p)) as [IHd IHl]; split.
    + intro Hd; apply IHd; unfold step_; apply NoDup_assign, Hd.
    + rewrite IHl; unfold step_ at 1; rewrite lookup_assign.
      destruct (String.eqb_spec (idFunc p) key) as [-> | Hne]; simpl.
      * destruct (lookup acc key) as [old |]; simpl.
        -- rewrite <- app_assoc; reflexivity.
        -- reflexivity.
      * destruct (lookup acc key); reflexivity.
Qed.

(** The grouping that opens [filterUnreceived]: no key comes twice; a key
    holds the sequences of the packets that have this id, in the order of
    the packets, and the id of every packet is a key; one query is
    prepared for each key. *)
Theorem packetsPerDestination_groups :
  forall (idFunc : Packet -> string) (packets : list Packet),
    NoDup (map fst (packetsPerDestination idFunc packets))
    /\ (forall key,
           lookup (packetsPerDestination idFunc packets) key
           = match filter (fun p => String.eqb (idFunc p) key) packets with
             | [] => None
             | p :: ps => Some (map sequence (p :: ps))
             end)
    /\ (forall p,
           In p packets ->
           In (idFunc p) (map fst (packetsPerDestination idFunc packets)))
    /\ (forall unreceivedQuery,
           filterUnreceived packets unreceivedQuery idFunc
           = match packets with
             | [] => Ret []
             | _ :: _ =>
                 unreceivedResponses <-
                   Promise_all
                     (map (fun '(destination, sequences) =>
                             let parts := split_at idDelim destination in
                             let port := nth 0 parts EmptyString in
                             let channel := nth 1 parts EmptyString in
                             notfound <- unreceivedQuery port channel
                                           sequences ;;
                             Ret (destination, notfound))
                        (packetsPerDestination idFunc packets)) ;;
                 Ret (unreceivedOf unreceivedResponses)
             end).
Proof.
  intros idFunc packets.
  assert (Hlookup : forall key,
             lookup (packetsPerDestination idFunc packets) key
             = match filter (fun p => String.eqb (idFunc p) key) packets with
               | [] => None
               | p :: ps => Some (map sequence (p :: ps))
               end).
  { intro key.
    etransitivity;
      [exact (proj2 (packetsPerDestination_from idFunc packets [] key)) |].
    simpl; destruct (filter _ packets); reflexivity. }
  split; [| split; [exact Hlookup | split]].
  - apply (proj1 (packetsPerDestination_from idFunc packets [] EmptyString)).
    constructor.
  - intros p Hp.
    destruct (in_dec string_dec (idFunc p)
                (map fst (packetsPerDestination idFunc packets)))
      as [Hin | Hout]; [exact Hin | exfalso].
    apply lookup_None in Hout; rewrite Hlookup in Hout.
    assert (Hf : In p (filter (fun q => String.eqb (idFunc q) (idFunc p))
                         packets))
      by (apply filter_In; split; [exact Hp | apply String.eqb_refl]).
    destruct (filter _ packets); [exact Hf | discriminate Hout].
  - intro q; destruct packets; reflexivity.
Qed.

Lemma packetsPerDestination_groups_witness :
  lookup
    (packetsPerDestination packetId
       [Sim.transfer 1; Sim.transfer 2; Sim.transfer 3])
    "transfer:channel-0" = Some [1; 2; 3]
  /\ In (packetId (Sim.transfer 2))
       (map fst
          (packetsPerDestination packetId
             [Sim.transfer 1; Sim.transfer 2; Sim.transfer 3])).
Proof.
  destruct (packetsPerDestination_groups packetId
              [Sim.transfer 1; Sim.transfer 2; Sim.transfer 3])
    as (_ & Hlookup & Hin & _).
  split.
  - rewrite Hlookup; reflexivity.
  - apply Hin; right; left; reflexivity.
Defined.

(** ** Calls made for the elements of a list *)

Lemma fulfilled_OK {R : Type} (rs : list (Result R)) (vs : list R) :
  fulfilled rs = OK vs -> rs = map OK vs.
Proof.
  revert vs; induction rs as [| [v | e] rs IH]; intros vs; simpl.
  - intro H; injection H as <-; reflexivity.
  - destruct (fulfilled rs) as [vs' | e]; [| discriminate].
    intro H; injection H as <-; simpl; rewrite (IH vs' eq_refl); reflexivity.
  - discriminate.
Qed.

Lemma fulfilled_Err {R : Type} (rs : list (Result R)) (e : Error) :
  fulfilled rs = Err e -> In (Err e) rs.
Proof.
  induction rs as [| [v | e'] rs IH]; simpl.
  - discriminate.
  - destruct (fulfilled rs) as [vs' | e'']; [discriminate |].
    intro H; injection H as ->; right; apply IH; reflexivity.
  - intro H; injection H as ->; left; reflexivity.
Qed.

Lemma fulfilled_tagged {T X R : Type} (f : T -> X -> R) (xs : list T)
  (rs : list (Result X)) :
  List.length rs = List.length xs ->
  fulfilled (map (fun xr => mapResult (f (fst xr)) (snd xr)) (combine xs rs))
  = match fulfilled rs with
    | OK vs => OK (map (fun xv => f (fst xv) (snd xv)) (combine xs vs))
    | Err e => Err e
    end.
Proof.
  revert rs; induction xs as [| x xs IH]; intros [| [v | e] rs] Hlen;
    simpl in *; try discriminate Hlen; try reflexivity.
  injection Hlen as Hlen; rewrite (IH rs Hlen).
  destruct (fulfilled rs); reflexivity.
Qed.

Lemma answered_In {T X : Type} (c : T -> Call X) (xs : list T)
  (rs : list (Result X)) (r : Result X) :
  List.length rs = List.length xs ->
  In r rs -> exists x, In x xs /\ In (step (c x) r) (answered c xs rs).
Proof.
  unfold answered.
  revert rs; induction xs as [| x xs IH]; intros [| r0 rs] Hlen Hin;
    simpl in *; try discriminate Hlen; try contradiction.
  injection Hlen as Hlen.
  destruct Hin as [-> | Hin].
  - exists x; split; left; reflexivity.
  - destruct (IH rs Hlen Hin) as (y & Hy & Hstep).
    exists y; split; right; assumption.
Qed.

Lemma answered_transactions {T X : Type} (c : T -> Call X) (xs : list T)
  (rs : list (Result X)) :
  (forall x, broadcasts (c x) = false) ->
  transactions (answered c xs rs) = [].
Proof.
  intro Hc; unfold answered, transactions.
  induction (combine xs rs) as [| [x r] l IH]; simpl; [reflexivity |].
  rewrite Hc; exact IH.
Qed.

Lemma answered_length {T X : Type} (c : T -> Call X) (xs : list T)
  (rs : list (Result X)) :
  List.length rs = List.length xs ->
  List.length (answered c xs rs) = List.length xs.
Proof.
  intro Hlen; unfold answered.
  rewrite length_map, length_combine, Hlen; apply Nat.min_id.
Qed.

Section ListCalls.
Context {World : Type}.
Variable handler : forall X : Type, Call X -> World -> Result X * World.
Context {T X R : Type}.
Variables (c : T -> Call X) (f : T -> X -> R) (mk : T -> Prog R).
Hypothesis Hmk : forall x w,
    run handler (mk x) w
    = (let '(r, w1) := handler X (c x) w in
       ([step (c x) r], mapResult (f x) r, w1)).

Lemma run_settleAll_calls (xs : list T) (w : World) :
  exists rs w',
    List.length rs = List.length xs
    /\ run handler (settleAll (map mk xs)) w
       = (answered c xs rs,
          OK (map (fun xr => mapResult (f (fst xr)) (snd xr))
                (combine xs rs)),
          w').
Proof.
  revert w; induction xs as [| x xs IH]; intro w.
  - exists [], w; split; reflexivity.
  - change (settleAll (map mk (x :: xs)))
      with (bind (settle (mk x))
              (fun r => bind (settleAll (map mk xs))
                          (fun rs => Ret (r :: rs)))).
    rewrite run_bind, run_settle, Hmk.
    destruct (handler X (c x) w) as [r w1].
    destruct (IH w1) as (rs & w' & Hlen & Hrun).
    rewrite run_bind, Hrun; simpl.
    exists (r :: rs), w'; split; [simpl; rewrite Hlen; reflexivity |].
    unfold answered; simpl; rewrite app_nil_r; reflexivity.
Qed.

(** [Promise.all] of one call for each element of a list: the calls are
    made in the order of the list, whether or not one is rejected, and
    the values come back in that order. *)
Lemma run_Promise_all_calls (xs : list T) (w : World) :
  exists rs w',
    List.length rs = List.length xs
    /\ run handler (Promise_all (map mk xs)) w
       = (answered c xs rs,
          match fulfilled rs with
          | OK vs => OK (map (fun xv => f (fst xv) (snd xv)) (combine xs vs))
          | Err e => Err e
          end,
          w').
Proof.
  destruct (run_settleAll_calls xs w) as (rs & w' & Hlen & Hrun).
  exists rs, w'; split; [exact Hlen |].
  unfold Promise_all; rewrite run_bind, Hrun.
  rewrite (fulfilled_tagged f xs rs Hlen).
  destruct (fulfilled rs); simpl; rewrite app_nil_r; reflexivity.
Qed.
End ListCalls.

Lemma run_Promise_all2 {World R1 R2 : Type}
  (handler : forall X : Type, Call X -> World -> Result X * World)
  (p1 : Prog R1) (p2 : Prog R2) (w : World) :
  run handler (Promise_all2 p1 p2) w
  = (let '(t1, o1, w1) := run handler p1 w in
     let '(t2, o2, w2) := run handler p2 w1 in
     (t1 ++ t2,
      match o1, o2 with
      | OK x1, OK x2 => OK (x1, x2)
      | Err e, _ => Err e
      | _, Err e => Err e
      end,
      w2)).
Proof.
  unfold Promise_all2.
  rewrite run_bind, run_settle.
  destruct (run handler p1 w) as [[t1 o1] w1].
  rewrite run_bind, run_settle.
  destruct (run handler p2 w1) as [[t2 o2] w2].
  destruct o1, o2; simpl; rewrite app_nil_r; reflexivity.
Qed.

(** ** Pending packets and acks *)

Lemma lookup_unreceivedOf_from (l : list (string * list Z))
  (acc : Record_ (list Z)) (k : string) :
  NoDup (map fst l) ->
  lookup
    (fold_left
       (fun (nested : Record_ (list Z)) '(key, sequences) =>
          assign nested key sequences) l acc) k
  = match lookup l k with
    | Some v => Some v
    | None => lookup acc k
    end.
Proof.
  revert acc; induction l as [| [k0 v0] l IH]; intros acc Hd; simpl.
  - reflexivity.
  - inversion Hd as [| ? ? Hnotin Hd']; subst.
    rewrite (IH _ Hd'), lookup_assign.
    destruct (String.eqb_spec k0 k) as [-> | _]; [| reflexivity].
    apply lookup_None in Hnotin; rewrite Hnotin; reflexivity.
Qed.

Lemma keys_combine {V : Type} (keys : list string) (vs : list V) :
  List.length vs = List.length keys -> map fst (combine keys vs) = keys.
Proof.
  revert vs; induction keys as [| k keys IH]; intros [| v vs] Hlen;
    simpl in *; try discriminate Hlen; [reflexivity |].
  injection Hlen as Hlen; rewrite (IH vs Hlen); reflexivity.
Qed.

Lemma lookup_unreceivedOf (keys : list string) (vs : list (list Z))
  (k : string) :
  NoDup keys -> List.length vs = List.length keys ->
  lookup (unreceivedOf (combine keys vs)) k = lookup (combine keys vs) k.
Proof.
  intros Hd Hlen; unfold unreceivedOf.
  rewrite lookup_unreceivedOf_from by (rewrite keys_combine; assumption).
  destruct (lookup (combine keys vs) k); reflexivity.
Qed.

Lemma combine_tagged {K V : Type} (xs : list (K * V)) (vs : list V) :
  map (fun xv : K * V * V => (fst (fst xv), snd xv)) (combine xs vs)
  = combine (map fst xs) vs.
Proof.
  revert vs; induction xs as [| x xs IH]; intros [| v vs]; simpl;
    try reflexivity.
  rewrite IH; reflexivity.
Qed.

Lemma filterThrowing_total {T : Type} (U : Record_ (list Z))
  (idOf : T -> string) (seqOf : T -> Z) (all : list T) :
  (forall x, In x all -> lookup U (idOf x) <> None) ->
  filterThrowing (fun x => isUnreceived U (idOf x) (seqOf x)) all
  = OK (filter (fun x => reportedUnreceived U (idOf x) (seqOf x)) all).
Proof.
  induction all as [| x all IH]; intro Hcover; simpl; [reflexivity |].
  rewrite IH by (intros y Hy; apply Hcover; right; exact Hy).
  unfold isUnreceived, reportedUnreceived.
  destruct (lookup U (idOf x)) eqn:E; [reflexivity |].
  exfalso; exact (Hcover x (or_introl eq_refl) E).
Qed.

Section Pending.
Context {World : Type}.
Variable handler : forall X : Type, Call X -> World -> Result X * World.

Lemma filterUnreceived_run
  (unreceived : string -> string -> list Z -> Call (list Z))
  (idFunc : Packet -> string) (packets : list Packet) (w : World) :
  exists rs w',
    List.length rs = List.length (packetsPerDestination idFunc packets)
    /\ run handler
         (filterUnreceived packets
            (fun port channel sequences =>
               res <- await (unreceived port channel sequences) ;; Ret res)
            idFunc) w
       = (answered (askFor unreceived) (packetsPerDestination idFunc packets)
            rs,
          match fulfilled rs with
          | OK vs =>
              OK (unreceivedOf
                    (combine (map fst (packetsPerDestination idFunc packets))
                       vs))
          | Err e => Err e
          end,
          w').
Proof.
  destruct packets as [| p packets].
  - exists [], w; split; reflexivity.
  - set (groups := packetsPerDestination idFunc (p :: packets)).
    set (mk := fun entry : string * list Z =>
                 let '(destination, sequences) := entry in
                 let parts := split_at idDelim destination in
                 let port := nth 0 parts EmptyString in
                 let channel := nth 1 parts EmptyString in
                 notfound <- (res <- await (unreceived port channel
                                              sequences) ;; Ret res) ;;
                 Ret (destination, notfound)).
    assert (Hmk : forall x w0,
               run handler (mk x) w0
               = (let '(r, w1) := handler _ (askFor unreceived x) w0 in
                  ([step (askFor unreceived x) r],
                   mapResult (fun v => (fst x, v)) r, w1))).
    { intros [d seqs] w0; unfold mk, askFor; simpl.
      destruct (handler _ _ w0) as [[v | e] w1]; reflexivity. }
    destruct (run_Promise_all_calls handler (askFor unreceived)
                (fun x v => (fst x, v)) mk Hmk groups w)
      as (rs & w' & Hlen & Hrun).
    exists rs, w'; split; [exact Hlen |].
    change (filterUnreceived (p :: packets) _ idFunc)
      with (unreceivedResponses <- Promise_all (map mk groups) ;;
            Ret (unreceivedOf unreceivedResponses)).
    rewrite run_bind, Hrun.
    destruct (fulfilled rs) as [vs | e]; simpl; [| reflexivity].
    rewrite app_nil_r, combine_tagged; reflexivity.
Qed.

Context {T : Type}.
Variables (sent : Call (list T)) (packetOf : T -> Packet)
  (idFunc : Packet -> string)
  (unreceived : string -> string -> list Z -> Call (list Z)).

(** How a run of the body that [getPendingPackets] and [getPendingAcks]
    share goes. *)
Lemma pendingItems_run (w w' : World) (t : list Step)
  (out : Result (list T)) :
  run handler (pendingItems sent packetOf idFunc unreceived) w = (t, out, w') ->
  (exists e, t = [step sent (Err e)] /\ out = Err e)
  \/ exists all rs,
      let groups := packetsPerDestination idFunc (map packetOf all) in
      List.length rs = List.length groups
      /\ t = step sent (OK all) :: answered (askFor unreceived) groups rs
      /\ match fulfilled rs with
         | Err e => out = Err e
         | OK vs =>
             out = OK (filter
                         (fun x =>
                            reportedUnreceived (combine (map fst groups) vs)
                              (idFunc (packetOf x)) (sequence (packetOf x)))
                         all)
         end.
Proof.
  unfold pendingItems; rewrite run_bind, run_await.
  destruct (handler _ sent w) as [[all | e] w1]; cbn [fst snd].
  - rewrite run_bind.
    destruct (filterUnreceived_run unreceived idFunc (map packetOf all) w1)
      as (rs & w2 & Hlen & Hrun).
    rewrite Hrun.
    intro H; right; exists all, rs; split; [exact Hlen |].
    destruct (fulfilled rs) as [vs | e] eqn:Ef.
    + assert (Hvs : List.length vs
                    = List.length
                        (map fst (packetsPerDestination idFunc
                                    (map packetOf all)))).
      { apply fulfilled_OK in Ef.
        rewrite length_map, <- Hlen, Ef, length_map; reflexivity. }
      assert (Hd : NoDup (map fst (packetsPerDestination idFunc
                                     (map packetOf all))))
        by (apply (proj1 (packetsPerDestination_from idFunc
                            (map packetOf all) [] EmptyString));
            constructor).
      rewrite filterThrowing_total in H.
      * simpl in H; injection H as <- <- <-.
        split; [rewrite app_nil_r; reflexivity |].
        f_equal; apply filter_ext; intro x.
        unfold reportedUnreceived.
        rewrite (lookup_unreceivedOf _ vs _ Hd Hvs); reflexivity.
      * intros x Hx.
        rewrite (lookup_unreceivedOf _ vs _ Hd Hvs).
        intro Hnone; apply lookup_None in Hnone.
        rewrite (keys_combine _ vs Hvs) in Hnone.
        apply Hnone.
        destruct (in_dec string_dec (idFunc (packetOf x))
                    (map fst (packetsPerDestination idFunc
                                (map packetOf all))))
          as [Hin | Hout]; [exact Hin | exfalso].
        apply lookup_None in Hout.
        pose proof (proj2 (packetsPerDestination_from idFunc
                             (map packetOf all) [] (idFunc (packetOf x))))
          as Hl.
        simpl in Hl.
        assert (Hf : In (packetOf x)
                       (filter (fun q => String.eqb (idFunc q)
                                           (idFunc (packetOf x)))
                          (map packetOf all)))
          by (apply filter_In; split;
              [apply in_map, Hx | apply String.eqb_refl]).
        unfold packetsPerDestination in Hout.
        rewrite Hout in Hl.
        destruct (filter _ (map packetOf all)); [exact Hf | discriminate Hl].
    + simpl in H; injection H as <- <- <-.
      split; reflexivity.
  - intro H; injection H as <- <- <-.
    left; exists e; split; reflexivity.
Qed.
End Pending.

Lemma getPendingPackets_as_pendingItems (this : Link) (source : Side)
  (opts : QueryOpts) :
  getPendingPackets this source opts
  = pendingItems (querySentPackets (src (getEnds this source)) opts) packet
      packetId (unreceivedPackets (client (dest (getEnds this source)))).
Proof.
  reflexivity.
Qed.

Lemma getPendingAcks_as_pendingItems (this : Link) (source : Side)
  (opts : QueryOpts) :
  getPendingAcks this source opts
  = pendingItems (queryWrittenAcks (src (getEnds this source)) opts)
      (fun a => originalPacket (ack a)) ackId
      (unreceivedAcks (client (dest (getEnds this source)))).
Proof.
  reflexivity.
Qed.

Lemma pendingItems_fulfilled {World T : Type}
  (handler : forall X : Type, Call X -> World -> Result X * World)
  (sent : Call (list T)) (packetOf : T -> Packet)
  (idFunc : Packet -> string)
  (unreceived : string -> string -> list Z -> Call (list Z))
  (w w' : World) (t : list Step) (pending : list T) :
  run handler (pendingItems sent packetOf idFunc unreceived) w
  = (t, OK pending, w') ->
  exists all vs,
    let groups := packetsPerDestination idFunc (map packetOf all) in
    List.length vs = List.length groups
    /\ t = step sent (OK all)
             :: answered (askFor unreceived) groups (map OK vs)
    /\ pending
       = filter
           (fun x =>
              reportedUnreceived (combine (map fst groups) vs)
                (idFunc (packetOf x)) (sequence (packetOf x)))
           all.
Proof.
  intro H; apply pendingItems_run in H.
  destruct H as [(e & _ & He) | (all & rs & Hlen & Ht & Hout)];
    [discriminate He |].
  destruct (fulfilled rs) as [vs | e] eqn:Ef; [| discriminate Hout].
  injection Hout as ->.
  apply fulfilled_OK in Ef; subst rs.
  rewrite length_map in Hlen.
  exists all, vs; repeat split; assumption.
Qed.

Lemma pendingItems_rejected {World T : Type}
  (handler : forall X : Type, Call X -> World -> Result X * World)
  (sent : Call (list T)) (packetOf : T -> Packet)
  (idFunc : Packet -> string)
  (unreceived : string -> string -> list Z -> Call (list Z))
  (w w' : World) (t : list Step) (out : Result (list T)) :
  broadcasts sent = false ->
  (forall port channel sequences,
      broadcasts (unreceived port channel sequences) = false) ->
  run handler (pendingItems sent packetOf idFunc unreceived) w = (t, out, w') ->
  transactions t = []
  /\ forall e, out = Err e -> exists (X : Type) (c : Call X),
        In (step c (Err e)) t.
Proof.
  intros Hsent Hq H; apply pendingItems_run in H.
  destruct H as [(e & -> & ->) | (all & rs & Hlen & -> & Hout)].
  - split; [unfold transactions; simpl; rewrite Hsent; reflexivity |].
    intros e' He; injection He as <-.
    do 2 eexists; left; reflexivity.
  - split.
    + unfold transactions; simpl; rewrite Hsent.
      apply answered_transactions; intro x; apply Hq.
    + intros e He.
      destruct (fulfilled rs) as [vs | e'] eqn:Ef; subst out;
        [discriminate He | injection He as ->].
      apply fulfilled_Err in Ef.
      destruct (answered_In (askFor unreceived) _ rs (Err e) Hlen Ef)
        as (x & _ & Hstep).
      do 2 eexists; right; exact Hstep.
Qed.

(** What [getPendingPackets] returns: the source side is asked once for
    the packets it sent; the destination is then asked once for every id
    that these packets are grouped under, in the order the ids first
    appear and with the sequences of the group; the packets returned are,
    in the order of the source's answer, those whose sequence is in the
    destination's answer for their id.  When the source reports no packet
    the destination is not asked. *)
Theorem getPendingPackets_pending :
  forall (World : Type)
         (handler : forall X : Type, Call X -> World -> Result X * World)
         (this : Link) (source : Side) (opts : QueryOpts) (w w' : World)
         (t : list Step) (pending : list PacketWithMetadata),
    run handler (getPendingPackets this source opts) w = (t, OK pending, w') ->
    exists all vs,
      let groups := packetsPerDestination packetId (map packet all) in
      List.length vs = List.length groups
      /\ t = step (querySentPackets (src (getEnds this source)) opts) (OK all)
               :: answered
                    (askFor (unreceivedPackets
                               (client (dest (getEnds this source)))))
                    groups (map OK vs)
      /\ pending
         = filter
             (fun p =>
                reportedUnreceived (combine (map fst groups) vs)
                  (packetId (packet p)) (sequence (packet p)))
             all.
Proof.
  intros World handler this source opts w w' t pending H.
  rewrite getPendingPackets_as_pendingItems in H.
  exact (pendingItems_fulfilled handler _ _ _ _ w w' t pending H).
Qed.

(** Chain A has sent packet 1, chain B has not received it: it is
    pending, after one query on each chain. *)
Lemma getPendingPackets_pending_witness :
  exists t w',
    run Sim.handler (getPendingPackets Sim.link A (mkQueryOpts None))
      Sim.onePacket
    = (t, OK [mkPacketWithMetadata (Sim.transfer 1) 100], w')
    /\ List.length t = 2%nat.
Proof.
  eexists _, _; split; [reflexivity |].
  destruct (getPendingPackets_pending _ Sim.handler Sim.link A
              (mkQueryOpts None) Sim.onePacket _ _ _ eq_refl)
    as (all & vs & _ & Ht & _).
  reflexivity.
Defined.

(** What [getPendingAcks] returns: the same for the acks that the source
    side wrote, grouped under the source port and channel of the packet
    each acknowledges. *)
Theorem getPendingAcks_pending :
  forall (World : Type)
         (handler : forall X : Type, Call X -> World -> Result X * World)
         (this : Link) (source : Side) (opts : QueryOpts) (w w' : World)
         (t : list Step) (pending : list AckWithMetadata),
    run handler (getPendingAcks this source opts) w = (t, OK pending, w') ->
    exists all vs,
      let groups :=
        packetsPerDestination ackId
          (map (fun a => originalPacket (ack a)) all) in
      List.length vs = List.length groups
      /\ t = step (queryWrittenAcks (src (getEnds this source)) opts) (OK all)
               :: answered
                    (askFor (unreceivedAcks
                               (client (dest (getEnds this source)))))
                    groups (map OK vs)
      /\ pending
         = filter
             (fun a =>
                reportedUnreceived (combine (map fst groups) vs)
                  (ackId (originalPacket (ack a)))
                  (sequence (originalPacket (ack a))))
             all.
Proof.
  intros World handler this source opts w w' t pending H.
  rewrite getPendingAcks_as_pendingItems in H.
  exact (pendingItems_fulfilled handler _ _ _ _ w w' t pending H).
Qed.

(** Chain B wrote the acks of packets 1 and 2 and chain A has seen the
    ack of packet 2: B is asked for its acks, A is asked once, for the
    one id of the two, about sequences 1 and 2, and answers 1; the ack of
    packet 1 is pending and the ack of packet 2 is filtered out. *)
Lemma getPendingAcks_pending_witness :
  exists t w',
    run Sim.handler (getPendingAcks Sim.link B (mkQueryOpts None)) unacked
    = (t, OK [ackOf 1], w')
    /\ t = step (queryWrittenAcks (endB Sim.link) (mkQueryOpts None))
               (OK [ackOf 1; ackOf 2])
             :: answered (askFor (unreceivedAcks Chain1))
                  [("transfer:channel-0", [1; 2])] [OK [1]]
    /\ exists all vs,
        let groups :=
          packetsPerDestination ackId
            (map (fun a => originalPacket (ack a)) all) in
        List.length vs = List.length groups
        /\ t = step (queryWrittenAcks (src (getEnds Sim.link B))
                       (mkQueryOpts None)) (OK all)
                 :: answered
                      (askFor (unreceivedAcks
                                 (client (dest (getEnds Sim.link B)))))
                      groups (map OK vs)
        /\ [ackOf 1]
           = filter
               (fun a =>
                  reportedUnreceived (combine (map fst groups) vs)
                    (ackId (originalPacket (ack a)))
                    (sequence (originalPacket (ack a))))
               all.
Proof.
  eexists _, _; split; [reflexivity |].
  split; [reflexivity |].
  exact (getPendingAcks_pending _ Sim.handler Sim.link B (mkQueryOpts None)
           unacked _ _ _ eq_refl).
Defined.

(** [getPendingPackets] and [getPendingAcks] broadcast no transaction,
    and when one fails it is with the error of a query that was rejected:
    reading the answers under the ids of the packets never fails. *)
Theorem getPending_fails_only_with_a_query :
  forall (World : Type)
         (handler : forall X : Type, Call X -> World -> Result X * World)
         (this : Link) (source : Side) (opts : QueryOpts) (w : World),
    (forall t out w',
        run handler (getPendingPackets this source opts) w = (t, out, w') ->
        transactions t = []
        /\ forall e, out = Err e ->
             exists (X : Type) (c : Call X), In (step c (Err e)) t)
    /\ (forall t out w',
          run handler (getPendingAcks this source opts) w = (t, out, w') ->
          transactions t = []
          /\ forall e, out = Err e ->
               exists (X : Type) (c : Call X), In (step c (Err e)) t).
Proof.
  intros World handler this source opts w; split; intros t out w' H.
  - rewrite getPendingPackets_as_pendingItems in H.
    revert H; apply pendingItems_rejected; reflexivity.
  - rewrite getPendingAcks_as_pendingItems in H.
    revert H; apply pendingItems_rejected; reflexivity.
Qed.

(** Chain B stops answering before it is asked: the error comes from the
    query on B. *)
Lemma getPending_fails_only_with_a_query_witness :
  exists t w',
    run flaky (getPendingPackets Sim.link A (mkQueryOpts None))
      (1%nat, Sim.onePacket)
    = (t, Err (CollaboratorError "unreachable"), w')
    /\ transactions t = []
    /\ exists (X : Type) (c : Call X),
        In (step c (Err (CollaboratorError "unreachable"))) t.
Proof.
  eexists _, _; split; [reflexivity |].
  destruct (proj1 (getPending_fails_only_with_a_query _ flaky Sim.link A
                     (mkQueryOpts None) (1%nat, Sim.onePacket))
              _ _ _ eq_refl) as [Hquiet Herr].
  split; [exact Hquiet | exact (Herr _ eq_refl)].
Defined.

(** ** Relaying *)

Lemma map_snd_combine {T V : Type} (xs : list T) (vs : list V) :
  List.length vs = List.length xs ->
  map (fun xv : T * V => snd xv) (combine xs vs) = vs.
Proof.
  revert vs; induction xs as [| x xs IH]; intros [| v vs] Hlen;
    simpl in *; try discriminate Hlen; [reflexivity |].
  injection Hlen as Hlen; rewrite (IH vs Hlen); reflexivity.
Qed.

Section Relaying.
Context {World : Type}.
Variable handler : forall X : Type, Call X -> World -> Result X * World.

Lemma run_proofs {T : Type} (c : T -> Call bytes) (xs : list T) (w w' : World)
  (t : list Step) (proofs : list bytes) :
  run handler (Promise_all (map (fun x => await (c x)) xs)) w
  = (t, OK proofs, w') ->
  List.length proofs = List.length xs
  /\ t = answered c xs (map OK proofs).
Proof.
  assert (Hmk : forall x w0,
             run handler ((fun x => await (c x)) x) w0
             = (let '(r, w1) := handler _ (c x) w0 in
                ([step (c x) r], mapResult (fun v => v) r, w1))).
  { intros x w0; rewrite run_await.
    destruct (handler _ (c x) w0) as [[v | e] w1]; reflexivity. }
  destruct (run_Promise_all_calls handler c (fun _ v => v) _ Hmk xs w)
    as (rs & w2 & Hlen & Hrun).
  rewrite Hrun; intro H.
  destruct (fulfilled rs) as [vs | e] eqn:Ef; [| discriminate H].
  apply fulfilled_OK in Ef; subst rs.
  rewrite length_map in Hlen.
  rewrite (map_snd_combine xs vs Hlen) in H.
  injection H as <- <- <-.
  split; [exact Hlen | reflexivity].
Qed.

Lemma relayPackets_run (parseAcksFromLogs : list Log -> list Ack)
  (this : Link) (source : Side) (packets : list PacketWithMetadata)
  (w w' : World) (t : list Step) (acks : list AckWithMetadata) :
  run handler (relayPackets parseAcksFromLogs this source packets) w
  = (t, OK acks, w') ->
  exists t0 headerHeight w1 proofs res,
    run handler
      (updateClientToHeight this source
         (neededHeight (map packetHeight packets))) w
    = (t0, OK headerHeight, w1)
    /\ List.length proofs = List.length packets
    /\ t = t0
           ++ answered
                (fun p => getPacketProof (client (src (getEnds this source)))
                            p headerHeight)
                (map packet packets) (map OK proofs)
           ++ [step (receivePackets (client (dest (getEnds this source)))
                       (map packet packets) proofs headerHeight) (OK res)]
    /\ acks = map (fun ack => mkAckWithMetadata (msgHeight res) ack)
                (parseAcksFromLogs (logs res)).
Proof.
  unfold relayPackets; cbv zeta; rewrite run_bind.
  destruct (run handler (updateClientToHeight this source _) w)
    as [[t0 [headerHeight | e]] w1]; [| discriminate].
  rewrite run_bind.
  destruct (run handler (Promise_all _) w1) as [[t1 [proofs | e]] w2] eqn:Hp;
    [| discriminate].
  apply run_proofs in Hp; destruct Hp as [Hlen ->].
  rewrite length_map in Hlen.
  rewrite run_bind, run_await.
  destruct (handler _ _ w2) as [[res | e] w3]; cbn [fst snd];
    [| discriminate].
  simpl; intro H; injection H as <- <- <-.
  exists t0, headerHeight, w1, proofs, res.
  split; [reflexivity |].
  split; [exact Hlen |].
  split; [rewrite ?app_nil_r; reflexivity | reflexivity].
Qed.

Lemma relayAcks_run (this : Link) (source : Side)
  (acks : list AckWithMetadata) (w w' : World) (t : list Step) (h : Z) :
  run handler (relayAcks this source acks) w = (t, OK h, w') ->
  exists t0 headerHeight w1 proofs res,
    run handler
      (updateClientToHeight this source (neededHeight (map ackHeight acks))) w
    = (t0, OK headerHeight, w1)
    /\ List.length proofs = List.length acks
    /\ t = t0
           ++ answered
                (fun a => getAckProof (client (src (getEnds this source))) a
                            headerHeight)
                acks (map OK proofs)
           ++ [step (acknowledgePackets (client (dest (getEnds this source)))
                       acks proofs headerHeight) (OK res)]
    /\ h = msgHeight res.
Proof.
  unfold relayAcks; cbv zeta; rewrite run_bind.
  destruct (run handler (updateClientToHeight this source _) w)
    as [[t0 [headerHeight | e]] w1]; [| discriminate].
  rewrite run_bind.
  destruct (run handler (Promise_all _) w1) as [[t1 [proofs | e]] w2] eqn:Hp;
    [| discriminate].
  apply run_proofs in Hp; destruct Hp as [Hlen ->].
  rewrite run_bind, run_await.
  destruct (handler _ _ w2) as [[res | e] w3]; cbn [fst snd];
    [| discriminate].
  simpl; intro H; injection H as <- <- <-.
  exists t0, headerHeight, w1, proofs, res.
  split; [reflexivity |].
  split; [exact Hlen |].
  split; [rewrite ?app_nil_r; reflexivity | reflexivity].
Qed.
End Relaying.

Lemma transactions_app (t1 t2 : list Step) :
  transactions (t1 ++ t2) = transactions t1 ++ transactions t2.
Proof.
  apply filter_app.
Qed.

Lemma transactions_ends_with (t : list Step) (s : Step) :
  stepBroadcasts s = true ->
  (1 <= List.length (transactions (t ++ [s])))%nat.
Proof.
  intro Hs; rewrite transactions_app, length_app; simpl; rewrite Hs; simpl.
  lia.
Qed.

(** The packets that [relayPackets] relays: after the client of the
    destination has reached the needed height, one proof is fetched from
    the source for every packet, in the order of the packets and all at
    the height that the update returned; then one [receivePackets] is
    broadcast on the destination, with all the packets, their proofs in
    the same order, and that height.  Every ack returned is one parsed
    from the logs of this transaction and carries the height of the block
    it was included in. *)
Theorem relayPackets_submits_all :
  forall (World : Type)
         (handler : forall X : Type, Call X -> World -> Result X * World)
         (parseAcksFromLogs : list Log -> list Ack)
         (this : Link) (source : Side) (packets : list PacketWithMetadata)
         (w w' : World) (t : list Step) (acks : list AckWithMetadata),
    run handler (relayPackets parseAcksFromLogs this source packets) w
    = (t, OK acks, w') ->
    exists t0 headerHeight w1 proofs res,
      run handler
        (updateClientToHeight this source
           (neededHeight (map packetHeight packets))) w
      = (t0, OK headerHeight, w1)
      /\ List.length proofs = List.length packets
      /\ t = t0
             ++ answered
                  (fun p => getPacketProof
                              (client (src (getEnds this source))) p
                              headerHeight)
                  (map packet packets) (map OK proofs)
             ++ [step (receivePackets (client (dest (getEnds this source)))
                         (map packet packets) proofs headerHeight) (OK res)]
      /\ acks = map (fun ack => mkAckWithMetadata (msgHeight res) ack)
                  (parseAcksFromLogs (logs res)).
Proof.
  intros World handler parse this source packets w w' t acks H.
  exact (relayPackets_run handler parse this source packets w w' t acks H).
Qed.

(** Scenario 5, first half: the packet of height 100 is relayed after an
    update of the client of B, with one proof. *)
Lemma relayPackets_submits_all_witness :
  exists t0 headerHeight w1 proofs res,
    run Sim.handler (updateClientToHeight Sim.link A (Num 101)) Sim.onePacket
    = (t0, OK headerHeight, w1)
    /\ List.length proofs = 1%nat
    /\ trace Sim.handler
         (relayPackets Sim.parseAcksFromLogs Sim.link A
            [mkPacketWithMetadata (Sim.transfer 1) 100]) Sim.onePacket
       = t0
           ++ answered (fun p => getPacketProof Chain1 p headerHeight)
                [Sim.transfer 1] (map OK proofs)
           ++ [step (receivePackets Chain2 [Sim.transfer 1] proofs
                       headerHeight) (OK res)].
Proof.
  destruct (relayPackets_submits_all _ Sim.handler Sim.parseAcksFromLogs
              Sim.link A [mkPacketWithMetadata (Sim.transfer 1) 100]
              Sim.onePacket _ _ _ eq_refl)
    as (t0 & headerHeight & w1 & proofs & res & Hupdate & Hlen & Ht & _).
  exists t0, headerHeight, w1, proofs, res.
  split; [exact Hupdate |].
  split; [exact Hlen | exact Ht].
Defined.

(** The acks that [relayAcks] relays: the same, with one
    [acknowledgePackets] on the destination; the height returned is the
    height of the block that included it. *)
Theorem relayAcks_submits_all :
  forall (World : Type)
         (handler : forall X : Type, Call X -> World -> Result X * World)
         (this : Link) (source : Side) (acks : list AckWithMetadata)
         (w w' : World) (t : list Step) (h : Z),
    run handler (relayAcks this source acks) w = (t, OK h, w') ->
    exists t0 headerHeight w1 proofs res,
      run handler
        (updateClientToHeight this source (neededHeight (map ackHeight acks)))
        w
      = (t0, OK headerHeight, w1)
      /\ List.length proofs = List.length acks
      /\ t = t0
             ++ answered
                  (fun a => getAckProof (client (src (getEnds this source)))
                              a headerHeight)
                  acks (map OK proofs)
             ++ [step (acknowledgePackets
                         (client (dest (getEnds this source))) acks proofs
                         headerHeight) (OK res)]
      /\ h = msgHeight res.
Proof.
  intros World handler this source acks w w' t h H.
  exact (relayAcks_run handler this source acks w w' t h H).
Qed.

Lemma relayAcks_submits_all_witness :
  exists t0 headerHeight proofs res,
    trace Sim.handler (relayAcks Sim.link B []) Sim.quiet
    = t0
        ++ answered (fun a => getAckProof Chain2 a headerHeight) []
             (map OK proofs)
        ++ [step (acknowledgePackets Chain1 [] proofs headerHeight) (OK res)]
    /\ List.length proofs = 0%nat.
Proof.
  destruct (relayAcks_submits_all _ Sim.handler Sim.link B [] Sim.quiet _ _ _
              eq_refl)
    as (t0 & headerHeight & w1 & proofs & res & _ & Hlen & Ht & _).
  exists t0, headerHeight, proofs, res.
  split; [exact Ht | exact Hlen].
Defined.

(** An iteration that succeeds has broadcast at least four transactions,
    also when nothing was pending: a [receivePackets] on each of the two
    chains and an [acknowledgePackets] on each of the two chains. *)
Theorem checkAndRelay_broadcasts_four :
  forall (World : Type)
         (handler : forall X : Type, Call X -> World -> Result X * World)
         (parseAcksFromLogs : list Log -> list Ack)
         (this : Link) (relayFrom out : RelayedHeights) (w w' : World)
         (t : list Step),
    run handler (checkAndRelayPacketsAndAcks parseAcksFromLogs this relayFrom)
      w = (t, OK out, w') ->
    (exists packets proofs h res,
        In (step (receivePackets (client (endB this)) packets proofs h)
              (OK res)) t)
    /\ (exists packets proofs h res,
          In (step (receivePackets (client (endA this)) packets proofs h)
                (OK res)) t)
    /\ (exists acks proofs h res,
          In (step (acknowledgePackets (client (endB this)) acks proofs h)
                (OK res)) t)
    /\ (exists acks proofs h res,
          In (step (acknowledgePackets (client (endA this)) acks proofs h)
                (OK res)) t)
    /\ (4 <= List.length (transactions t))%nat.
Proof.
  intros World handler parse this relayFrom out w w' t.
  unfold checkAndRelayPacketsAndAcks.
  rewrite run_bind, run_Promise_all2.
  destruct (run handler (getPendingPackets this A _) w)
    as [[tpA [packetsA | e]] w1];
    destruct (run handler (getPendingPackets this B _) w1)
      as [[tpB [packetsB | e']] w2]; try discriminate.
  rewrite run_bind, run_Promise_all2.
  destruct (run handler (relayPackets parse this A packetsA) w2)
    as [[trA [acksA | e]] w3] eqn:HrA;
    destruct (run handler (relayPackets parse this B packetsB) w3)
      as [[trB [acksB | e']] w4] eqn:HrB; try discriminate.
  rewrite run_bind, run_Promise_all2.
  destruct (run handler (getPendingAcks this A _) w4)
    as [[taA [pendA | e]] w5];
    destruct (run handler (getPendingAcks this B _) w5)
      as [[taB [pendB | e']] w6]; try discriminate.
  rewrite run_bind, run_Promise_all2.
  destruct (run handler (relayAcks this A pendA) w6)
    as [[tkA [hA | e]] w7] eqn:HkA;
    destruct (run handler (relayAcks this B pendB) w7)
      as [[tkB [hB | e']] w8] eqn:HkB; try discriminate.
  simpl; intro H; injection H as <- _ _.
  apply relayPackets_run in HrA, HrB.
  apply relayAcks_run in HkA, HkB.
  destruct HrA as (a0 & a1 & a2 & a3 & a4 & _ & _ & -> & _).
  destruct HrB as (b0 & b1 & b2 & b3 & b4 & _ & _ & -> & _).
  destruct HkA as (c0 & c1 & c2 & c3 & c4 & _ & _ & -> & _).
  destruct HkB as (d0 & d1 & d2 & d3 & d4 & _ & _ & -> & _).
  simpl getEnds; simpl src; simpl dest.
  split; [exists (map packet packetsA), a3, a1, a4 |].
  2: split; [exists (map packet packetsB), b3, b1, b4 |].
  3: split; [exists pendA, c3, c1, c4 |].
  4: split; [exists pendB, d3, d1, d4 |].
  1-4: rewrite !in_app_iff; simpl; auto 30.
  rewrite !transactions_app, !length_app; simpl; lia.
Qed.


Lemma checkAndRelay_broadcasts_four_witness :
  List.length
    (transactions
       (trace Sim.handler
          (checkAndRelayPacketsAndAcks Sim.parseAcksFromLogs Sim.link
             (mkRelayedHeights None None None None)) Sim.quiet)) = 4%nat
  /\ (4 <= List.length
             (transactions
                (trace Sim.handler
                   (checkAndRelayPacketsAndAcks Sim.parseAcksFromLogs Sim.link
                      (mkRelayedHeights None None None None)) Sim.quiet)))%nat.
Proof.
  split; [reflexivity |].
  destruct (checkAndRelay_broadcasts_four _ Sim.handler Sim.parseAcksFromLogs
              Sim.link (mkRelayedHeights None None None None) _ Sim.quiet _ _
              eq_refl) as (_ & _ & _ & _ & Hfour).
  exact Hfour.
Defined.

(** ** The phases of an iteration *)













Section Schedules.
Context {World : Type}.
Variable handler : forall X : Type, Call X -> World -> Result X * World.



End Schedules.



(** ** Relaying that fails *)

Lemma answered_no_data_plane {T X : Type} (c : T -> Call X) (xs : list T)
  (rs : list (Result X)) :
  (forall x r, dataPlaneAccepted (step (c x) r) = false) ->
  existsb dataPlaneAccepted (answered c xs rs) = false.
Proof.
  intro Hc; unfold answered.
  induction (combine xs rs) as [| [x r] l IH]; simpl; [reflexivity |].
  rewrite IH, orb_false_r; apply Hc.
Qed.

Section RelayFailure.
Context {World : Type}.
Variable handler : forall X : Type, Call X -> World -> Result X * World.

Lemma updateClientToHeight_no_data_plane (this : Link) (source : Side)
  (minHeight : number) (w w' : World) (t : list Step) (out : Result Height) :
  run handler (updateClientToHeight this source minHeight) w = (t, out, w') ->
  existsb dataPlaneAccepted t = false.
Proof.
  intro H.
  unfold updateClientToHeight, updateClient in H; simpl in H.
  answer handler H; [| injection H as <- _ _; reflexivity].
  destruct (geb_number _ minHeight), (latestHeight x); simpl in H;
    try (injection H as <- _ _; reflexivity);
    (answer handler H; [| injection H as <- _ _; reflexivity]);
    destruct (ltb_number (height x0) minHeight); simpl in H;
    repeat (answer handler H; [| injection H as <- _ _; reflexivity]);
    injection H as <- _ _; reflexivity.
Qed.

Lemma relayPackets_fails (parseAcksFromLogs : list Log -> list Ack)
  (this : Link) (source : Side) (packets : list PacketWithMetadata)
  (w w' : World) (t : list Step) (e : Error) :
  run handler (relayPackets parseAcksFromLogs this source packets) w
  = (t, Err e, w') ->
  existsb dataPlaneAccepted t = false.
Proof.
  unfold relayPackets; cbv zeta; rewrite run_bind.
  destruct (run handler (updateClientToHeight this source _) w)
    as [[t0 [headerHeight | e0]] w1] eqn:H0;
    apply updateClientToHeight_no_data_plane in H0.
  - rewrite run_bind.
    assert (Hmk : forall x w0,
               run handler
                 ((fun packet =>
                     await (getPacketProof
                              (client (src (getEnds this source))) packet
                              headerHeight)) x) w0
               = (let '(r, w2) :=
                    handler _ (getPacketProof
                                 (client (src (getEnds this source))) x
                                 headerHeight) w0 in
                  ([step (getPacketProof
                            (client (src (getEnds this source))) x
                            headerHeight) r],
                   mapResult (fun v => v) r, w2))).
    { intros x w0; rewrite run_await.
      destruct (handler _ _ w0) as [[v | e1] w2]; reflexivity. }
    destruct (run_Promise_all_calls handler _ (fun _ v => v) _ Hmk
                (map packet packets) w1) as (rs & w2 & Hlen & Hrun).
    rewrite Hrun.
    destruct (fulfilled rs) as [vs | e1].
    + rewrite run_bind, run_await.
      destruct (handler _ _ w2) as [[res | e2] w3]; cbn [fst snd];
        [simpl; discriminate |].
      intro H; injection H as <- _ _.
      rewrite !existsb_app, H0, answered_no_data_plane by reflexivity.
      reflexivity.
    + intro H; injection H as <- _ _.
      rewrite existsb_app, H0, answered_no_data_plane by reflexivity.
      reflexivity.
  - intro H; injection H as <- _ _; exact H0.
Qed.

Lemma relayAcks_fails (this : Link) (source : Side)
  (acks : list AckWithMetadata) (w w' : World) (t : list Step) (e : Error) :
  run handler (relayAcks this source acks) w = (t, Err e, w') ->
  existsb dataPlaneAccepted t = false.
Proof.
  unfold relayAcks; cbv zeta; rewrite run_bind.
  destruct (run handler (updateClientToHeight this source _) w)
    as [[t0 [headerHeight | e0]] w1] eqn:H0;
    apply updateClientToHeight_no_data_plane in H0.
  - rewrite run_bind.
    assert (Hmk : forall x w0,
               run handler
                 ((fun ack =>
                     await (getAckProof (client (src (getEnds this source)))
                              ack headerHeight)) x) w0
               = (let '(r, w2) :=
                    handler _ (getAckProof
                                 (client (src (getEnds this source))) x
                                 headerHeight) w0 in
                  ([step (getAckProof (client (src (getEnds this source))) x
                            headerHeight) r],
                   mapResult (fun v => v) r, w2))).
    { intros x w0; rewrite run_await.
      destruct (handler _ _ w0) as [[v | e1] w2]; reflexivity. }
    destruct (run_Promise_all_calls handler _ (fun _ v => v) _ Hmk acks w1)
      as (rs & w2 & Hlen & Hrun).
    rewrite Hrun.
    destruct (fulfilled rs) as [vs | e1].
    + rewrite run_bind, run_await.
      destruct (handler _ _ w2) as [[res | e2] w3]; cbn [fst snd];
        [simpl; discriminate |].
      intro H; injection H as <- _ _.
      rewrite !existsb_app, H0, answered_no_data_plane by reflexivity.
      reflexivity.
    + intro H; injection H as <- _ _.
      rewrite existsb_app, H0, answered_no_data_plane by reflexivity.
      reflexivity.
  - intro H; injection H as <- _ _; exact H0.
Qed.
End RelayFailure.

(** When [relayPackets] or [relayAcks] fails, the destination has
    accepted no [receivePackets] and no [acknowledgePackets] of this
    call: the one data-plane transaction is the last call, and a proof
    that cannot be fetched, or an update of the client that fails, keeps
    it from being broadcast. *)
Theorem relay_failure_delivers_nothing :
  forall (World : Type)
         (handler : forall X : Type, Call X -> World -> Result X * World)
         (parseAcksFromLogs : list Log -> list Ack)
         (this : Link) (source : Side) (w w' : World) (t : list Step)
         (e : Error),
    (forall packets,
        run handler (relayPackets parseAcksFromLogs this source packets) w
        = (t, Err e, w') ->
        existsb dataPlaneAccepted t = false)
    /\ (forall acks,
          run handler (relayAcks this source acks) w = (t, Err e, w') ->
          existsb dataPlaneAccepted t = false).
Proof.
  intros World handler parse this source w w' t e; split.
  - intros packets H.
    exact (relayPackets_fails handler parse this source packets w w' t e H).
  - intros acks H.
    exact (relayAcks_fails handler this source acks w w' t e H).
Qed.

(** The chains stop answering after the update of the client: the proof
    of the packet is not fetched and nothing is delivered. *)
Lemma relay_failure_delivers_nothing_witness :
  exists t w',
    run flaky
      (relayPackets Sim.parseAcksFromLogs Sim.link A
         [mkPacketWithMetadata (Sim.transfer 1) 100]) (4%nat, Sim.onePacket)
    = (t, Err (CollaboratorError "unreachable"), w')
    /\ existsb dataPlaneAccepted t = false.
Proof.
  destruct (run flaky
              (relayPackets Sim.parseAcksFromLogs Sim.link A
                 [mkPacketWithMetadata (Sim.transfer 1) 100])
              (4%nat, Sim.onePacket)) as [[t out] w'] eqn:Hrun.
  assert (Hout : out = Err (CollaboratorError "unreachable"))
    by (vm_compute in Hrun; congruence).
  subst out.
  exists t, w'; split; [reflexivity |].
  exact (proj1 (relay_failure_delivers_nothing _ flaky Sim.parseAcksFromLogs
                  Sim.link A (4%nat, Sim.onePacket) w' t _)
           _ Hrun).
Defined.
